(** * Backup Boss: the bus-factor / coverage scoring engine

    Shallow embedding of the scoring code of
    [POST /api/v1/analysis/bus-factor] (the final handler listed in
    [src/unnamed/part_006], lines 829-1062) and of the [GET] handler that
    lives at [src/src/app/api/v1/analysis/bus-factor/route.ts].

    Modelling choices, all taken from the source:
    - a JS [Set<string>] is an insertion-ordered duplicate-free list
      ([Array.from(set)[0]] is the first inserted element, [size] the
      length);
    - the JS [Map] [runbookTraining] and the grouping object
      [runbooksByCategory] are finite maps with string keys;
    - the [scores] object is an association list, because the order of its
      keys is the order in which [JSON.stringify] prints them;
    - [forEach] loops over mutable variables are left folds over an
      explicit state;
    - [globalMinTrained] starts at [Infinity]: it is an [option nat] with
      [None] for [Infinity];
    - [coverage = covered / total] is the exact rational.  In the source it
      is an IEEE double; for array lengths (below 2^32) the double quotient
      compares with the literals [0.5] and [0.8] exactly as the rational
      does with 1/2 and 4/5, and those two comparisons are its only use. *)

From Stdlib Require Import QArith Qround.
From stdpp Require Import base numbers option strings pretty gmap list.

Local Open Scope string_scope.
Local Open Scope list_scope.
Local Open Scope nat_scope.

(** ** Data model *)

Inductive Category : Set :=
  | operations
  | finance
  | client_management
  | vendor_relations.

#[global] Instance Category_eq_dec : EqDecision Category.
Proof. solve_decision. Defined.

(** The string a category is in the database rows and in object keys. *)
Definition catName (c : Category) : string :=
  match c with
  | operations => "operations"
  | finance => "finance"
  | client_management => "client_management"
  | vendor_relations => "vendor_relations"
  end.

(** [const categories: Category[] = [...]] *)
Definition categories : list Category :=
  [operations; finance; client_management; vendor_relations].

Inductive RiskLevel : Set := low | high | critical.

Definition riskName (r : RiskLevel) : string :=
  match r with
  | low => "low"
  | high => "high"
  | critical => "critical"
  end.

(** [interface Runbook { id; category; title }] *)
Record Runbook : Set := mkRunbook {
  rb_id : string;
  rb_category : Category;
  rb_title : string
}.

(** [interface User { id; competencies }]; the column may be null, which
    the handler reads as [user.competencies || []]. *)
Record User : Set := mkUser {
  user_id : string;
  competencies : option (list string)
}.

Record CompletedTask : Set := mkTask {
  runbook_id : string;
  assignee_id : string
}.

Record KnowledgeFragment : Set := mkFragment {
  kf_category : Category;
  kf_user_id : string
}.

Record Score : Set := mkScore {
  coverage : Q;
  riskLevel : RiskLevel
}.

Record Gap : Set := mkGap {
  function : string;
  singlePointOfFailure : string;
  recommendedAction : string
}.

#[global] Instance Gap_eq_dec : EqDecision Gap.
Proof. solve_decision. Defined.

(** ** JS sets and objects *)

(** [set.add(x)] on an insertion-ordered set. *)
Definition setAdd {A} `{EqDecision A} (x : A) (s : list A) : list A :=
  if decide (x ∈ s) then s else s ++ [x].

(** [obj[k] = v] on an object whose keys are kept in insertion order. *)
Fixpoint objSet {V} (k : string) (v : V) (o : list (string * V)) : list (string * V) :=
  match o with
  | [] => [(k, v)]
  | (k', v') :: o' =>
      if decide (k' = k) then (k, v) :: o' else (k', v') :: objSet k v o'
  end.

Fixpoint objGet {V} (k : string) (o : list (string * V)) : option V :=
  match o with
  | [] => None
  | (k', v') :: o' => if decide (k' = k) then Some v' else objGet k o'
  end.

Definition objKeys {V} (o : list (string * V)) : list string := o.*1.

(** ** Grouping the runbooks: [runbooks.reduce((acc, rb) => ...)] *)

Definition groupStep (acc : gmap string (list Runbook)) (rb : Runbook)
  : gmap string (list Runbook) :=
  let k := catName (rb_category rb) in
  <[k := default [] (acc !! k) ++ [rb]]> acc.

Definition runbooksByCategory (runbooks : list Runbook) : gmap string (list Runbook) :=
  fold_left groupStep runbooks ∅.

(** ** Assembling the verification evidence: [runbookTraining] *)

(** [runbookTraining.get(id)?.add(user)]: nothing happens for an unknown id. *)
Definition addTrained (rbId userId : string) (m : gmap string (list string))
  : gmap string (list string) :=
  alter (setAdd userId) rbId m.

(** [runbooks.forEach(rb => runbookTraining.set(rb.id, new Set()))] *)
Definition initTraining (runbooks : list Runbook) : gmap string (list string) :=
  fold_left (fun m rb => <[rb_id rb := []]> m) runbooks ∅.

(** [comps.includes(rb.category) || comps.includes('all')] *)
Definition competent (user : User) (rb : Runbook) : bool :=
  let comps := default [] (competencies user) in
  bool_decide (catName (rb_category rb) ∈ comps) || bool_decide ("all" ∈ comps).

Definition addByCompetency (runbooks : list Runbook) (users : list User)
    (m : gmap string (list string)) : gmap string (list string) :=
  fold_left (fun m user =>
    fold_left (fun m rb =>
      if competent user rb then addTrained (rb_id rb) (user_id user) m else m)
      runbooks m) users m.

(** [completedTasks.forEach(task => { if (runbookTraining.has(...)) ... })] *)
Definition addByTasks (tasks : list CompletedTask) (m : gmap string (list string))
  : gmap string (list string) :=
  fold_left (fun m task =>
    if bool_decide (is_Some (m !! runbook_id task))
    then addTrained (runbook_id task) (assignee_id task) m else m) tasks m.

(** [userCategoryKnowledge]: user id to the set of categories of the
    fragments the user contributed. *)
Definition userCategoryKnowledge (fragments : list KnowledgeFragment)
  : gmap string (list Category) :=
  fold_left (fun k kf =>
    let k' := if bool_decide (is_Some (k !! kf_user_id kf)) then k
              else <[kf_user_id kf := []]> k in
    alter (setAdd (kf_category kf)) (kf_user_id kf) k') fragments ∅.

Definition knows (k : gmap string (list Category)) (user : User) (rb : Runbook) : bool :=
  match k !! user_id user with
  | Some cats => bool_decide (rb_category rb ∈ cats)
  | None => false
  end.

Definition addByKnowledge (runbooks : list Runbook) (users : list User)
    (k : gmap string (list Category)) (m : gmap string (list string))
  : gmap string (list string) :=
  fold_left (fun m rb =>
    fold_left (fun m user =>
      if knows k user rb then addTrained (rb_id rb) (user_id user) m else m)
      users m) runbooks m.

Definition runbookTraining (runbooks : list Runbook) (users : list User)
    (tasks : list CompletedTask) (fragments : list KnowledgeFragment)
  : gmap string (list string) :=
  addByKnowledge runbooks users (userCategoryKnowledge fragments)
    (addByTasks tasks
      (addByCompetency runbooks users (initTraining runbooks))).

(** ** The scoring loop *)

(** [coverage < 0.5], [coverage < 0.8] *)
Definition Qltb (x y : Q) : bool := negb (Qle_bool y x).

(** The mutable variables of the handler that the loop over the
    categories writes. *)
Record Engine : Set := mkEngine {
  scores : list (string * Score);
  criticalGaps : list Gap;
  globalMinTrained : option nat
}.

Definition initEngine : Engine :=
  {| scores := [("operations", mkScore 0 critical);
                ("finance", mkScore 0 critical);
                ("client_management", mkScore 0 critical);
                ("vendor_relations", mkScore 0 critical)];
     criticalGaps := [];
     globalMinTrained := None |}.

(** [trainedUsers?.size || 0] *)
Definition sizeOf (trainedUsers : option (list string)) : nat :=
  match trainedUsers with
  | Some s => length s
  | None => 0
  end.

Definition trainedCount (training : gmap string (list string)) (rb : Runbook) : nat :=
  sizeOf (training !! rb_id rb).

(** [Array.from(trainedUsers || [])[0]] inside a template literal. *)
Definition firstOf (trainedUsers : option (list string)) : string :=
  match trainedUsers with
  | Some (u :: _) => u
  | _ => "undefined"
  end.

Definition spofOf (trainedUsers : option (list string)) : string :=
  if sizeOf trainedUsers =? 1
  then "Single employee (" +:+ firstOf trainedUsers +:+ ") has verified competency"
  else "No employees have verified competency".

Definition actionOf (n : nat) : string :=
  if n =? 1
  then "Cross-train additional employee immediately"
  else "Assign and verify training for at least two employees".

(** The gap pushed for a runbook with fewer than two trained users. *)
Definition runbookGap (cat : Category) (rb : Runbook)
    (trainedUsers : option (list string)) : Gap :=
  {| function := catName cat +:+ ": " +:+ rb_title rb;
     singlePointOfFailure := spofOf trainedUsers;
     recommendedAction := actionOf (sizeOf trainedUsers) |}.

(** The gap pushed for a category without runbooks. *)
Definition emptyGap (cat : Category) : Gap :=
  {| function := catName cat;
     singlePointOfFailure := "No documented procedures exist for this function";
     recommendedAction := "Create emergency runbooks immediately" |}.

(** [trainedCount < globalMinTrained], with [None] for [Infinity]. *)
Definition belowMin (n : nat) (g : option nat) : bool :=
  match g with
  | None => true
  | Some m => n <? m
  end.

Definition minStep (g : option nat) (n : nat) : option nat :=
  if belowMin n g then Some n else g.

(** Body of [catRunbooks.forEach(rb => ...)]: the local [covered] and the
    handler's variables. *)
Definition rbStep (cat : Category) (training : gmap string (list string))
    (acc : nat * Engine) (rb : Runbook) : nat * Engine :=
  let '(covered, e) := acc in
  let trainedUsers := training !! rb_id rb in
  let n := sizeOf trainedUsers in
  let covered' := if 2 <=? n then S covered else covered in
  let gaps' := if n <? 2
               then criticalGaps e ++ [runbookGap cat rb trainedUsers]
               else criticalGaps e in
  (covered', {| scores := scores e;
                criticalGaps := gaps';
                globalMinTrained := minStep (globalMinTrained e) n |}).

(** [total > 0 ? covered / total : 0] *)
Definition coverageOf (covered total : nat) : Q :=
  if 0 <? total then (Z.of_nat covered # Pos.of_nat total)%Q else 0%Q.

Definition riskOf (cov : Q) : RiskLevel :=
  if Qltb cov (1 # 2) then critical
  else if Qltb cov (4 # 5) then high
  else low.

(** Body of [categories.forEach(cat => ...)]. *)
Definition catStep (byCat : gmap string (list Runbook))
    (training : gmap string (list string)) (e : Engine) (cat : Category) : Engine :=
  let catRunbooks := default [] (byCat !! catName cat) in
  let total := length catRunbooks in
  if total =? 0 then
    {| scores := objSet (catName cat) (mkScore 0 critical) (scores e);
       criticalGaps := criticalGaps e ++ [emptyGap cat];
       globalMinTrained := Some 0 |}
  else
    let '(covered, e') := fold_left (rbStep cat training) catRunbooks (0, e) in
    let cov := coverageOf covered total in
    {| scores := objSet (catName cat) (mkScore cov (riskOf cov)) (scores e');
       criticalGaps := criticalGaps e';
       globalMinTrained := globalMinTrained e' |}.

Definition runEngine (runbooks : list Runbook) (training : gmap string (list string))
  : Engine :=
  fold_left (catStep (runbooksByCategory runbooks) training) categories initEngine.

(** [if (globalMinTrained === Infinity || globalMinTrained === 0) ...] *)
Definition busFactorOf (g : option nat) : nat :=
  match g with
  | None => 0
  | Some 0 => 0
  | Some n => n
  end.

(** What the handler hands on: [scores], [criticalGaps], [busFactor]. *)
Record Analysis : Set := mkAnalysis {
  a_scores : list (string * Score);
  a_criticalGaps : list Gap;
  a_busFactor : nat
}.

Definition computeBusFactor (runbooks : list Runbook)
    (training : gmap string (list string)) : Analysis :=
  let e := runEngine runbooks training in
  {| a_scores := scores e;
     a_criticalGaps := criticalGaps e;
     a_busFactor := busFactorOf (globalMinTrained e) |}.

(** ** The handlers' responses *)

(** The JSON values the handlers hand to [NextResponse.json]. *)
#[warnings="-register-all"] Inductive json : Set :=
  | JNum (q : Q)
  | JStr (s : string)
  | JArr (items : list json)
  | JObj (fields : list (string * json)).

Definition jsonKeys (j : json) : list string :=
  match j with
  | JObj fields => fields.*1
  | _ => []
  end.

Definition jsonField (k : string) (j : json) : option json :=
  match j with
  | JObj fields => objGet k fields
  | _ => None
  end.

Definition scoreJson (s : Score) : json :=
  JObj [("coverage", JNum (coverage s)); ("riskLevel", JStr (riskName (riskLevel s)))].

Definition gapJson (g : Gap) : json :=
  JObj [("function", JStr (function g));
        ("singlePointOfFailure", JStr (singlePointOfFailure g));
        ("recommendedAction", JStr (recommendedAction g))].

(** [NextResponse.json({ analysisId, scores, criticalGaps, busFactor })].
    The final listing of the handler stops before its last statement; this
    is the return of the earlier listing (part_006, 662-667), the same four
    keys the final listing returns for a stored analysis (866-871). *)
Definition postResponse (analysisId : string) (a : Analysis) : json :=
  JObj [("analysisId", JStr analysisId);
        ("scores", JObj (prod_map id scoreJson <$> a_scores a));
        ("criticalGaps", JArr (gapJson <$> a_criticalGaps a));
        ("busFactor", JNum (inject_Z (Z.of_nat (a_busFactor a))))].

(** What the handler draws from outside the snapshot: [uuidv4()] and
    [new Date()]. *)
Record Env : Set := mkEnv {
  uuid : string;
  now : Z
}.

(** The rows the handler reads for one organisation. *)
Record Snapshot : Set := mkSnapshot {
  s_runbooks : list Runbook;
  s_users : list User;
  s_tasks : list CompletedTask;
  s_fragments : list KnowledgeFragment
}.

Definition analyse (s : Snapshot) : Analysis :=
  computeBusFactor (s_runbooks s)
    (runbookTraining (s_runbooks s) (s_users s) (s_tasks s) (s_fragments s)).

(** The row inserted into [bus_factor_analysis]. *)
Record AnalysisRow : Set := mkRow {
  row_id : string;
  row_scores : list (string * Score);
  row_critical_gaps : list Gap;
  row_bus_factor : nat;
  row_calculated_at : Z;
  row_next_calculation_due : Z
}.

(** The recalculating path of [POST]: the response and the stored row. *)
Definition POST (env : Env) (s : Snapshot) : json * AnalysisRow :=
  let a := analyse s in
  (postResponse (uuid env) a,
   {| row_id := uuid env;
      row_scores := a_scores a;
      row_critical_gaps := a_criticalGaps a;
      row_bus_factor := a_busFactor a;
      row_calculated_at := now env;
      row_next_calculation_due := (now env + 7 * 24 * 60 * 60 * 1000)%Z |}).

(** *** The [GET] handler of [route.ts] *)

(** [Math.floor(Math.random() * 3) + 1], for a draw [random] in [0, 1). *)
Definition getBusFactor (random : Q) : Z := (Qfloor (random * 3) + 1)%Z.

(** [busFactor <= 1 ? "critical" : busFactor <= 2 ? "high" : "medium"] *)
Definition getRiskLevel (busFactor : Z) : string :=
  if (busFactor <=? 1)%Z then "critical"
  else if (busFactor <=? 2)%Z then "high"
  else "medium".

(** The response of [GET]; [calculatedAt] is the ISO string of [new Date()]. *)
Definition GET (orgId : string) (random : Q) (calculatedAt : string) : json :=
  let busFactor := getBusFactor random in
  JObj [("orgId", JStr orgId);
        ("busFactor", JNum (inject_Z busFactor));
        ("riskLevel", JStr (getRiskLevel busFactor));
        ("criticalPersons", JArr []);
        ("recommendations",
          JArr [JStr "Document knowledge held by single-person dependencies";
                JStr "Cross-train team members on critical processes";
                JStr "Create runbooks for all high-risk procedures"]);
        ("calculatedAt", JStr calculatedAt)].

(** ** What the loop computes, stated over the input *)

(** The runbooks of one category, in input order. *)
Definition inCategory (c : Category) (runbooks : list Runbook) : list Runbook :=
  filter (fun rb => rb_category rb = c) runbooks.

Definition isCovered (training : gmap string (list string)) (rb : Runbook) : Prop :=
  2 ≤ trainedCount training rb.

#[global] Instance isCovered_dec training rb : Decision (isCovered training rb).
Proof. unfold isCovered. apply _. Defined.

Definition coveredCount (training : gmap string (list string)) (l : list Runbook) : nat :=
  length (filter (isCovered training) l).

(** The gaps of a list of runbooks of category [c], one for each runbook
    with fewer than two trained users, in the order of the list. *)
Definition runbookGaps (c : Category) (training : gmap string (list string))
    (l : list Runbook) : list Gap :=
  flat_map (fun rb =>
    if trainedCount training rb <? 2
    then [runbookGap c rb (training !! rb_id rb)] else []) l.

Definition catGaps (training : gmap string (list string)) (runbooks : list Runbook)
    (c : Category) : list Gap :=
  match inCategory c runbooks with
  | [] => [emptyGap c]
  | l => runbookGaps c training l
  end.

Definition catScore (training : gmap string (list string)) (runbooks : list Runbook)
    (c : Category) : Score :=
  match inCategory c runbooks with
  | [] => mkScore 0 critical
  | l => let cov := coverageOf (coveredCount training l) (length l) in
         mkScore cov (riskOf cov)
  end.

Definition catMin (training : gmap string (list string)) (runbooks : list Runbook)
    (c : Category) (g : option nat) : option nat :=
  match inCategory c runbooks with
  | [] => Some 0
  | l => fold_left minStep (trainedCount training <$> l) g
  end.

(** ** Reading the flat list of gaps *)

(** [`${cat}: ${rb.title}`], the [function] of a runbook's entry. *)
Definition gapName (c : Category) (title : string) : string :=
  catName c +:+ ": " +:+ title.

(** An entry belongs to category [c] when its [function] is the category
    itself (no runbooks) or starts with the category and a colon. *)
Definition gapOfCategory (c : Category) (g : Gap) : bool :=
  bool_decide (function g = catName c)
  || String.prefix (catName c +:+ ": ") (function g).

(** The entries expected for one runbook whose name is [title] in
    category [c]: the one-person entry, no entry from two trained users
    on, the zero-person entry otherwise. *)
Definition namedEntry (training : gmap string (list string)) (c : Category)
    (title : string) (rb : Runbook) : list Gap :=
  match training !! rb_id rb with
  | Some [u] =>
      [mkGap (gapName c title)
         ("Single employee (" +:+ u +:+ ") has verified competency")
         "Cross-train additional employee immediately"]
  | Some (_ :: _ :: _) => []
  | _ =>
      [mkGap (gapName c title) "No employees have verified competency"
         "Assign and verify training for at least two employees"]
  end.

(** The distance of a risk level from "low" in the order
    critical, high, low. *)
Definition riskRank (r : RiskLevel) : nat :=
  match r with
  | low => 0
  | high => 1
  | critical => 2
  end.

(** [m'] keeps every set of [m] and only adds members. *)
Definition extends (m m' : gmap string (list string)) : Prop :=
  ∀ k s, m !! k = Some s → ∃ s', m' !! k = Some s' ∧ s ⊆ s'.

(** ** Sample inputs *)

(** One finance runbook with two trained users; the other categories
    have no runbooks. *)
Definition financeOnly : list Runbook := [mkRunbook "rb-payroll" finance "Payroll"].

Definition financeTraining : gmap string (list string) :=
  {["rb-payroll" := ["u-ann"; "u-bob"]]}.

(** Four operations runbooks with 3, 1, 2 and 0 trained users. *)
Definition opsFour : list Runbook :=
  [mkRunbook "rb-open" operations "Opening the shop";
   mkRunbook "rb-kiln" operations "Kiln shutdown";
   mkRunbook "rb-stock" operations "Stock count";
   mkRunbook "rb-alarm" operations "Alarm reset"].

Definition opsTraining : gmap string (list string) :=
  <["rb-open" := ["u-ann"; "u-bob"; "u-cat"]]>
  (<["rb-kiln" := ["u-bob"]]>
  (<["rb-stock" := ["u-ann"; "u-cat"]]>
  (<["rb-alarm" := []]> ∅))).

(** A catalog with one runbook per category and a user whose only
    competency tag is "all". *)
Definition catalog : list Runbook :=
  [mkRunbook "rb-open" operations "Opening the shop";
   mkRunbook "rb-payroll" finance "Payroll";
   mkRunbook "rb-quote" client_management "Quoting a job";
   mkRunbook "rb-steel" vendor_relations "Ordering steel"].

Definition owner : User := mkUser "u-own" (Some ["all"]).

(** Every runbook of [catalog] with the same two trained users. *)
Definition catalogTraining : gmap string (list string) :=
  <["rb-open" := ["u-ann"; "u-bob"]]>
  (<["rb-payroll" := ["u-ann"; "u-bob"]]>
  (<["rb-quote" := ["u-ann"; "u-bob"]]>
  (<["rb-steel" := ["u-ann"; "u-bob"]]> ∅))).

(** * Further code of the cited files *)

(** ** The alert of [POST]:
    [Object.values(scores).some(s => s.riskLevel === 'critical')] *)

#[global] Instance RiskLevel_eq_dec : EqDecision RiskLevel.
Proof. solve_decision. Defined.

Definition hasCriticalRisk (scores : list (string * Score)) : bool :=
  existsb (fun kv => bool_decide (riskLevel kv.2 = critical)) scores.

(** ** The guards and the stored analysis of [POST] (part_006, 829-873) *)

(** The payload [verifyAuth] returns. *)
Record Claims : Set := mkClaims {
  cl_orgId : string;
  cl_permissions : list string;
  cl_sub : string
}.

(** The body after [inputSchema.parse]. *)
Record Body : Set := mkBody {
  b_orgId : string;
  b_recalculate : bool
}.

(** What the statements before the first guard can throw: the errors of
    [verifyAuth], and the [ZodError] of [inputSchema.parse]. *)
Inductive Thrown : Set :=
  | ErrorMessage (message : string)
  | ZodError.

Inductive Outcome : Set :=
  | Throws (e : Thrown)
  | Respond (status : nat) (body : json).

Definition errorJson (error code : string) : json :=
  JObj [("error", JStr error); ("code", JStr code)].

(** [claims.permissions.includes('analysis:write') || ... 'admin' ... 'owner'] *)
Definition hasPermission (claims : Claims) : bool :=
  bool_decide ("analysis:write" ∈ cl_permissions claims)
  || bool_decide ("admin" ∈ cl_permissions claims)
  || bool_decide ("owner" ∈ cl_permissions claims).

(** The response built from a stored row (866-871). *)
Definition cachedResponse (existing : AnalysisRow) : json :=
  JObj [("analysisId", JStr (row_id existing));
        ("scores", JObj (prod_map id scoreJson <$> row_scores existing));
        ("criticalGaps", JArr (gapJson <$> row_critical_gaps existing));
        ("busFactor", JNum (inject_Z (Z.of_nat (row_bus_factor existing))))].

(** The handler up to its response.  [auth] is what [verifyAuth] gives,
    [parsed] what [inputSchema.parse] gives ([None] when it throws),
    [existing] the first row of the query for an analysis of the last 24
    hours, which is only run when [recalculate] is false.  The second
    component is the row inserted into [bus_factor_analysis], with its
    [org_id].  Database calls are taken to succeed. *)
Definition postHandler (auth : Thrown + Claims) (parsed : option Body)
    (existing : option AnalysisRow) (env : Env) (s : Snapshot)
  : Outcome * option (string * AnalysisRow) :=
  match auth with
  | inl e => (Throws e, None)
  | inr claims =>
      match parsed with
      | None => (Throws ZodError, None)
      | Some validated =>
          if negb (String.eqb (cl_orgId claims) (b_orgId validated)) then
            (Respond 403 (errorJson "Unauthorized access to organization" "UNAUTHORIZED"),
             None)
          else if negb (hasPermission claims) then
            (Respond 403 (errorJson "Insufficient permissions" "FORBIDDEN"), None)
          else
            match (if b_recalculate validated then None else existing) with
            | Some row => (Respond 200 (cachedResponse row), None)
            | None =>
                let '(response, row) := POST env s in
                (Respond 200 response, Some (b_orgId validated, row))
            end
      end
  end.

(** ** The reader of the stored gaps (part_003, 227-230) *)

(** [j?.[k]?.includes(x)] for a parsed JSON value [j]: a missing
    property gives [undefined], which is falsy; an array is searched for
    the string, a string for the substring; a number or an object has no
    [includes], and calling it throws ([None]).  JSON null and booleans
    are outside the [json] type. *)
Definition fieldIncludes (k x : string) (j : json) : option bool :=
  match j with
  | JObj fields =>
      match objGet k fields with
      | None => Some false
      | Some (JArr items) =>
          Some (existsb (fun i => match i with
                                  | JStr s => String.eqb s x
                                  | _ => false
                                  end) items)
      | Some (JStr s) => Some (bool_decide (is_Some (String.index 0 x s)))
      | Some _ => None
      end
  | _ => Some false
  end.

(** [criticalGaps?.categories?.includes(task.runbook_category) ||
     criticalGaps?.runbook_ids?.includes(task.runbook_id)] *)
Definition isCriticalGap (criticalGaps : json) (category runbookId : string)
  : option bool :=
  match fieldIncludes "categories" category criticalGaps with
  | None => None
  | Some true => Some true
  | Some false => fieldIncludes "runbook_ids" runbookId criticalGaps
  end.

(** The [critical_gaps] value [POST] stores: [JSON.stringify(criticalGaps)]. *)
Definition storedCriticalGaps (row : AnalysisRow) : json :=
  JArr (gapJson <$> row_critical_gaps row).

(** ** The memo listing (part_006, 80-267) *)

Inductive SqlParam : Set :=
  | PText (s : string)
  | PInt (n : Z).

(** The validated query of the memo listing. *)
Record MemoQuery : Set := mkMemoQuery {
  mq_orgId : string;
  mq_category : option Category;
  mq_startDate : option string;
  mq_endDate : option string;
  mq_hasTranscription : option bool;
  mq_page : Z;
  mq_limit : Z
}.

(** [whereConditions], [queryParams] and [paramIndex]. *)
Record Builder : Set := mkBuilder {
  whereConditions : list string;
  queryParams : list SqlParam;
  paramIndex : nat
}.

(** [`$${paramIndex}`] *)
Definition placeholder (i : nat) : string := "$" +:+ pretty i.

(** The double quote of the quoted SQL identifiers. *)
Definition dq : string := String (Ascii.ascii_of_nat 34) EmptyString.

Definition quoted (identifier : string) : string := dq +:+ identifier +:+ dq.

(** [EXISTS (SELECT 1 FROM "KnowledgeFragment" kf WHERE kf."memoId" = vm.id] *)
Definition fragmentExists : string :=
  "EXISTS (SELECT 1 FROM " +:+ quoted "KnowledgeFragment" +:+ " kf WHERE kf."
  +:+ quoted "memoId" +:+ " = vm.id".

Definition orgCondition : string := "vm." +:+ quoted "orgId" +:+ " = $1".

Definition categoryCondition (i : nat) : string :=
  fragmentExists +:+ " AND kf.category = " +:+ placeholder i +:+ ")".

Definition startCondition (i : nat) : string :=
  "vm." +:+ quoted "createdAt" +:+ " >= " +:+ placeholder i.

Definition endCondition (i : nat) : string :=
  "vm." +:+ quoted "createdAt" +:+ " <= " +:+ placeholder i.

Definition transcriptionCondition (b : bool) : string :=
  if b then fragmentExists +:+ ")" else "NOT " +:+ fragmentExists +:+ ")".

(** One [if (value) { whereConditions.push(...); queryParams.push(value);
    paramIndex++; }]. *)
Definition pushParam (condition : nat → string) (value : option string) (b : Builder)
  : Builder :=
  match value with
  | Some v =>
      {| whereConditions := whereConditions b ++ [condition (paramIndex b)];
         queryParams := queryParams b ++ [PText v];
         paramIndex := S (paramIndex b) |}
  | None => b
  end.

Definition pushTranscription (value : option bool) (b : Builder) : Builder :=
  match value with
  | Some t =>
      {| whereConditions := whereConditions b ++ [transcriptionCondition t];
         queryParams := queryParams b;
         paramIndex := paramIndex b |}
  | None => b
  end.

(** The builder when the count query is run. *)
Definition memoWhere (q : MemoQuery) : Builder :=
  pushTranscription (mq_hasTranscription q)
    (pushParam endCondition (mq_endDate q)
      (pushParam startCondition (mq_startDate q)
        (pushParam categoryCondition (catName <$> mq_category q)
          {| whereConditions := [orgCondition];
             queryParams := [PText (mq_orgId q)];
             paramIndex := 2 |}))).

(** [(page - 1) * limit] *)
Definition offsetOf (page limit : Z) : Z := ((page - 1) * limit)%Z.

(** [`LIMIT $${paramIndex} OFFSET $${paramIndex + 1}`] *)
Definition limitClause (b : Builder) : string :=
  "LIMIT " +:+ placeholder (paramIndex b) +:+ " OFFSET " +:+ placeholder (paramIndex b + 1).

(** The parameters of the memo query: [queryParams.push(limit, offset)]. *)
Definition memoParams (q : MemoQuery) : list SqlParam :=
  queryParams (memoWhere q) ++ [PInt (mq_limit q); PInt (offsetOf (mq_page q) (mq_limit q))].

(** [Math.ceil(total / limit)], the quotient taken exactly. *)
Definition pagesOf (total limit : Z) : Z := Qceiling (total # Z.to_pos limit).

(** * Properties *)

(** ** Category names *)

Lemma catName_inj (c d : Category) : catName c = catName d → c = d.
Proof. destruct c, d; simpl; intros H; first [reflexivity | discriminate H]. Qed.

Lemma catName_ne (c d : Category) : c ≠ d → catName c ≠ catName d.
Proof. intros Hne Heq. apply Hne, catName_inj, Heq. Qed.

(** ** The grouping object holds, per category, the runbooks in input order *)

Section Grouping.

Lemma groupStep_lookup acc rb c :
    default [] (groupStep acc rb !! catName c)
    = default [] (acc !! catName c) ++ inCategory c [rb].
  Proof.
    unfold groupStep, inCategory. cbn zeta.
    destruct (decide (rb_category rb = c)) as [Heq|Hne].
    - rewrite filter_cons_True by done. rewrite Heq, lookup_insert_eq.
      by rewrite filter_nil.
    - rewrite lookup_insert_ne by (by apply catName_ne).
      rewrite filter_cons_False by done. rewrite filter_nil.
      by rewrite app_nil_r.
  Qed.

Lemma fold_groupStep_lookup runbooks acc c :
    default [] (fold_left groupStep runbooks acc !! catName c)
    = default [] (acc !! catName c) ++ inCategory c runbooks.
  Proof.
    revert acc. induction runbooks as [|rb l IH]; intros acc; simpl.
    - by rewrite app_nil_r.
    - rewrite IH, groupStep_lookup. rewrite <- app_assoc. f_equal.
      unfold inCategory. simpl.
      destruct (decide (rb_category rb = c)).
      + by rewrite !filter_cons_True by done.
      + by rewrite !filter_cons_False by done.
  Qed.

Lemma runbooksByCategory_lookup runbooks c :
    default [] (runbooksByCategory runbooks !! catName c) = inCategory c runbooks.
  Proof.
    unfold runbooksByCategory. rewrite fold_groupStep_lookup.
    by rewrite lookup_empty.
  Qed.

End Grouping.

(** ** The inner loop *)

Section InnerLoop.

Variable cat : Category.
Variable training : gmap string (list string).

Lemma fold_rbStep l covered e :
    fold_left (rbStep cat training) l (covered, e)
    = (covered + coveredCount training l,
       {| scores := scores e;
          criticalGaps := criticalGaps e ++ runbookGaps cat training l;
          globalMinTrained :=
            fold_left minStep (trainedCount training <$> l) (globalMinTrained e) |}).
  Proof.
    revert covered e. induction l as [|rb l IH]; intros covered e.
    - simpl. unfold coveredCount. simpl. rewrite Nat.add_0_r, app_nil_r.
      by destruct e.
    - cbn [fold_left]. unfold rbStep at 2. rewrite IH. cbn [scores criticalGaps globalMinTrained].
      unfold coveredCount, runbookGaps. cbn [flat_map fmap list_fmap].
      fold (trainedCount training rb).
      f_equal.
      + destruct (decide (isCovered training rb)) as [Hc|Hc].
        * rewrite filter_cons_True by done. unfold isCovered in Hc.
          destruct (2 <=? trainedCount training rb) eqn:E.
          -- simpl. lia.
          -- apply Nat.leb_gt in E. lia.
        * rewrite filter_cons_False by done. unfold isCovered in Hc.
          destruct (2 <=? trainedCount training rb) eqn:E.
          -- apply Nat.leb_le in E. lia.
          -- done.
      + f_equal.
        destruct (trainedCount training rb <? 2).
        * by rewrite <- app_assoc.
        * done.
  Qed.

End InnerLoop.

(** ** One category *)

Lemma catStep_spec runbooks training e c :
  catStep (runbooksByCategory runbooks) training e c
  = {| scores := objSet (catName c) (catScore training runbooks c) (scores e);
       criticalGaps := criticalGaps e ++ catGaps training runbooks c;
       globalMinTrained := catMin training runbooks c (globalMinTrained e) |}.
Proof.
  unfold catStep, catScore, catGaps, catMin.
  rewrite runbooksByCategory_lookup.
  destruct (inCategory c runbooks) as [|rb l] eqn:E.
  - done.
  - cbn [length Nat.eqb]. rewrite fold_rbStep. cbn [scores criticalGaps globalMinTrained].
    done.
Qed.

(** ** The whole loop *)

Lemma runEngine_spec runbooks training :
  runEngine runbooks training
  = {| scores := (fun c => (catName c, catScore training runbooks c)) <$> categories;
       criticalGaps := concat (catGaps training runbooks <$> categories);
       globalMinTrained :=
         fold_left (fun g c => catMin training runbooks c g) categories None |}.
Proof.
  unfold runEngine, categories. cbn [fold_left].
  rewrite !catStep_spec. cbn [scores criticalGaps globalMinTrained initEngine].
  f_equal.
  cbn [concat fmap list_fmap]. by rewrite !app_nil_r, <- !app_assoc.
Qed.

Lemma computeBusFactor_gaps runbooks training :
  a_criticalGaps (computeBusFactor runbooks training)
  = concat (catGaps training runbooks <$> categories).
Proof. unfold computeBusFactor. cbn [a_criticalGaps]. by rewrite runEngine_spec. Qed.

Lemma computeBusFactor_scores runbooks training :
  a_scores (computeBusFactor runbooks training)
  = (fun c => (catName c, catScore training runbooks c)) <$> categories.
Proof. unfold computeBusFactor. cbn [a_scores]. by rewrite runEngine_spec. Qed.

Lemma computeBusFactor_score runbooks training c :
  objGet (catName c) (a_scores (computeBusFactor runbooks training))
  = Some (catScore training runbooks c).
Proof. rewrite computeBusFactor_scores. by destruct c. Qed.

(** ** Two runs of the loop *)

(** Finance alone is staffed: its coverage is 1 and its risk level low,
    the three other categories each push their entry, and the bus factor
    is 0. *)
Example run_finance_only :
  computeBusFactor financeOnly financeTraining
  = {| a_scores := [("operations", mkScore 0 critical);
                    ("finance", mkScore 1 low);
                    ("client_management", mkScore 0 critical);
                    ("vendor_relations", mkScore 0 critical)];
       a_criticalGaps := [emptyGap operations; emptyGap client_management;
                          emptyGap vendor_relations];
       a_busFactor := 0 |}.
Proof. reflexivity. Qed.

(** Every category has a runbook with two trained users: all coverages
    are 1, there is no gap and the bus factor is 2. *)
Example run_catalog_staffed :
  computeBusFactor catalog catalogTraining
  = {| a_scores := [("operations", mkScore 1 low);
                    ("finance", mkScore 1 low);
                    ("client_management", mkScore 1 low);
                    ("vendor_relations", mkScore 1 low)];
       a_criticalGaps := [];
       a_busFactor := 2 |}.
Proof. reflexivity. Qed.

(** ** Names of gap entries *)

Lemma gapName_ne_catName c title d : gapName c title ≠ catName d.
Proof. destruct c, d; unfold gapName; simpl; discriminate. Qed.

Lemma gapName_inj c title d title' :
  gapName c title = gapName d title' → c = d ∧ title = title'.
Proof.
  destruct c, d; unfold gapName; simpl; intros H;
    first [discriminate H | by injection H].
Qed.

Lemma runbookGap_function c rb o : function (runbookGap c rb o) = gapName c (rb_title rb).
Proof. reflexivity. Qed.

(** The gaps of a list of runbooks are the images of its runbooks with
    fewer than two trained users, in the order of the list. *)
Lemma runbookGaps_filter c training l :
  runbookGaps c training l
  = (fun rb => runbookGap c rb (training !! rb_id rb))
      <$> filter (fun rb => trainedCount training rb < 2) l.
Proof.
  unfold runbookGaps. induction l as [|rb l IH]; [done|].
  cbn [flat_map].
  destruct (trainedCount training rb <? 2) eqn:E.
  - apply Nat.ltb_lt in E. rewrite filter_cons_True by done.
    rewrite fmap_cons. simpl. by rewrite IH.
  - apply Nat.ltb_ge in E. rewrite filter_cons_False by lia.
    simpl. by rewrite IH.
Qed.

(** Claim C10: [criticalGaps] lists the categories in the fixed order
    operations, finance, client_management, vendor_relations; a category
    without runbooks contributes its single "no documented procedures"
    entry at its position, and a category with runbooks contributes the
    entries of its runbooks with fewer than two trained users, in the
    order these runbooks have in the input. *)
Theorem criticalGaps_order (runbooks : list Runbook)
    (training : gmap string (list string)) :
  let block (c : Category) : list Gap :=
    match filter (fun rb => rb_category rb = c) runbooks with
    | [] => [emptyGap c]
    | l => (fun rb => runbookGap c rb (training !! rb_id rb))
             <$> filter (fun rb => trainedCount training rb < 2) l
    end in
  a_criticalGaps (computeBusFactor runbooks training)
  = block operations ++ block finance ++ block client_management
      ++ block vendor_relations.
Proof.
  intros block. rewrite computeBusFactor_gaps.
  assert (Hb : ∀ c, catGaps training runbooks c = block c).
  { intros c. unfold catGaps, block, inCategory.
    destruct (filter _ runbooks) as [|rb l]; [done|].
    apply runbookGaps_filter. }
  unfold categories. cbn [fmap list_fmap concat].
  by rewrite !Hb, app_nil_r.
Qed.

(** ** The entries of one category *)

Lemma filter_all {A} (P : A → Prop) `{∀ x, Decision (P x)} (l : list A) :
  Forall P l → filter P l = l.
Proof.
  induction 1 as [|x l Hx _ IH]; [done|].
  rewrite filter_cons_True by done. by rewrite IH.
Qed.

Lemma filter_none {A} (P : A → Prop) `{∀ x, Decision (P x)} (l : list A) :
  Forall (fun x => ¬ P x) l → filter P l = [].
Proof.
  induction 1 as [|x l Hx _ IH]; [done|].
  by rewrite filter_cons_False by done.
Qed.

Lemma inCategory_nil c runbooks :
  inCategory c runbooks = [] ↔ ∀ rb, rb ∈ runbooks → rb_category rb ≠ c.
Proof.
  unfold inCategory. split.
  - intros H rb Hin Hc.
    assert (rb ∈ filter (fun rb => rb_category rb = c) runbooks) as Hf
      by (apply list_elem_of_filter; done).
    rewrite H in Hf. by apply elem_of_nil in Hf.
  - intros H. apply filter_none. apply Forall_forall. intros rb Hin.
    by apply H.
Qed.

Lemma gapOfCategory_emptyGap c d :
  gapOfCategory c (emptyGap d) = bool_decide (c = d).
Proof. by destruct c, d. Qed.

Lemma gapOfCategory_runbookGap c d rb o :
  gapOfCategory c (runbookGap d rb o) = bool_decide (c = d).
Proof.
  unfold gapOfCategory. rewrite runbookGap_function.
  rewrite (bool_decide_eq_false_2 _ (gapName_ne_catName d (rb_title rb) c)).
  destruct c, d; unfold gapName; simpl; try reflexivity;
    by destruct (rb_title rb).
Qed.

Lemma catGaps_category training runbooks c d :
  Forall (fun g => gapOfCategory c g = bool_decide (c = d)) (catGaps training runbooks d).
Proof.
  unfold catGaps. destruct (inCategory d runbooks) as [|rb l].
  - constructor; [apply gapOfCategory_emptyGap | constructor].
  - rewrite runbookGaps_filter. apply Forall_fmap, Forall_forall.
    intros rb' _. apply gapOfCategory_runbookGap.
Qed.

Lemma filter_catGaps training runbooks c d :
  filter (fun g => gapOfCategory c g) (catGaps training runbooks d)
  = if decide (c = d) then catGaps training runbooks d else [].
Proof.
  pose proof (catGaps_category training runbooks c d) as HF.
  destruct (decide (c = d)) as [Heq|Hne].
  - apply filter_all. eapply Forall_impl; [exact HF|].
    intros g Hg. cbn beta in Hg. rewrite Hg. by apply bool_decide_pack.
  - apply filter_none. eapply Forall_impl; [exact HF|].
    intros g Hg. cbn beta in Hg. rewrite Hg.
    intros Hb. by apply bool_decide_unpack in Hb.
Qed.

(** The entries of category [c] in the output are the block the loop
    pushed for [c]. *)
Lemma gaps_of_category runbooks training c :
  filter (fun g => gapOfCategory c g) (a_criticalGaps (computeBusFactor runbooks training))
  = catGaps training runbooks c.
Proof.
  rewrite computeBusFactor_gaps. unfold categories.
  cbn [fmap list_fmap concat]. rewrite !filter_app, !filter_catGaps, filter_nil.
  destruct c; simpl; by rewrite ?app_nil_r.
Qed.

(** Claim C5: each of the four categories is a key of [scores], whatever
    the input; a category without runbooks has coverage 0 and risk level
    critical, and the only entry of [criticalGaps] for it is one
    "No documented procedures exist for this function" entry. *)
Theorem scores_keys_and_empty_categories (runbooks : list Runbook)
    (training : gmap string (list string)) :
  let a := computeBusFactor runbooks training in
  objKeys (a_scores a)
    = ["operations"; "finance"; "client_management"; "vendor_relations"]
  ∧ ∀ c : Category,
      (∀ rb, rb ∈ runbooks → rb_category rb ≠ c) →
      objGet (catName c) (a_scores a) = Some (mkScore 0 critical)
      ∧ filter (fun g => gapOfCategory c g) (a_criticalGaps a)
        = [mkGap (catName c) "No documented procedures exist for this function"
                 "Create emergency runbooks immediately"].
Proof.
  intros a. split.
  - unfold a. by rewrite computeBusFactor_scores.
  - intros c Hc. apply inCategory_nil in Hc. unfold a. split.
    + rewrite computeBusFactor_score. unfold catScore. by rewrite Hc.
    + rewrite gaps_of_category. unfold catGaps. by rewrite Hc.
Qed.

Lemma scores_keys_and_empty_categories_witness :
  (∀ rb, rb ∈ financeOnly → rb_category rb ≠ operations)
  ∧ objGet "operations" (a_scores (computeBusFactor financeOnly financeTraining))
    = Some (mkScore 0 critical)
  ∧ filter (fun g => gapOfCategory operations g)
      (a_criticalGaps (computeBusFactor financeOnly financeTraining))
    = [mkGap "operations" "No documented procedures exist for this function"
             "Create emergency runbooks immediately"].
Proof.
  assert (H : ∀ rb, rb ∈ financeOnly → rb_category rb ≠ operations).
  { intros rb Hin. apply list_elem_of_singleton in Hin. by subst rb. }
  split; [exact H|].
  exact (proj2 (scores_keys_and_empty_categories financeOnly financeTraining)
           operations H).
Defined.

(** ** Entries named after a runbook *)

Lemma runbookGap_cases c rb (o : option (list string)) :
  runbookGap c rb o
  = match o with
    | Some [u] =>
        mkGap (gapName c (rb_title rb))
          ("Single employee (" +:+ u +:+ ") has verified competency")
          "Cross-train additional employee immediately"
    | Some (_ :: _ :: _) => runbookGap c rb o
    | _ =>
        mkGap (gapName c (rb_title rb)) "No employees have verified competency"
          "Assign and verify training for at least two employees"
    end.
Proof. by destruct o as [[|u [|v s]]|]. Qed.

Section NamedEntries.

Variable training : gmap string (list string).
Variables (c : Category) (title : string).

Local Abbreviation entry := (namedEntry training c title).

Lemma filter_name_runbookGaps d l :
    filter (fun g => function g = gapName c title) (runbookGaps d training l)
    = if decide (d = c)
      then flat_map entry (filter (fun rb => rb_title rb = title) l)
      else [].
  Proof.
    induction l as [|rb l IH]; [by destruct (decide (d = c))|].
    unfold runbookGaps in *. cbn [flat_map]. rewrite filter_app, IH. clear IH.
    unfold trainedCount.
    destruct (decide (d = c)) as [->|Hdc].
    - destruct (decide (rb_title rb = title)) as [Ht|Ht].
      + rewrite (filter_cons_True _ rb) by done. cbn [flat_map]. f_equal.
        unfold namedEntry. rewrite runbookGap_cases.
        destruct (training !! rb_id rb) as [[|u [|v s]]|]; simpl;
          rewrite ?filter_nil; try done;
          rewrite filter_cons_True by (cbn; by rewrite Ht);
          by rewrite filter_nil, Ht.
      + rewrite (filter_cons_False _ rb) by done.
        destruct (sizeOf (training !! rb_id rb) <? 2); [|done].
        rewrite filter_cons_False; [by rewrite filter_nil|].
        rewrite runbookGap_function. intros H. apply gapName_inj in H.
        by destruct H.
    - destruct (sizeOf (training !! rb_id rb) <? 2); [|done].
      rewrite filter_cons_False; [by rewrite filter_nil|].
      rewrite runbookGap_function. intros H. apply gapName_inj in H.
      by destruct H.
  Qed.

Lemma filter_name_catGaps runbooks d :
    filter (fun g => function g = gapName c title) (catGaps training runbooks d)
    = if decide (d = c)
      then flat_map entry (filter (fun rb => rb_title rb = title) (inCategory c runbooks))
      else [].
  Proof.
    unfold catGaps. destruct (inCategory d runbooks) as [|rb l] eqn:E.
    - rewrite filter_cons_False.
      2: { cbn. intros H. symmetry in H. by apply gapName_ne_catName in H. }
      rewrite filter_nil. destruct (decide (d = c)) as [<-|]; [|done].
      by rewrite E.
    - rewrite filter_name_runbookGaps.
      destruct (decide (d = c)) as [<-|]; [|done]. by rewrite E.
  Qed.

Lemma filter_name_gaps runbooks :
    filter (fun g => function g = gapName c title)
      (a_criticalGaps (computeBusFactor runbooks training))
    = flat_map entry
        (filter (fun rb => rb_category rb = c ∧ rb_title rb = title) runbooks).
  Proof.
    rewrite computeBusFactor_gaps. unfold categories.
    cbn [fmap list_fmap concat]. rewrite !filter_app, !filter_name_catGaps, filter_nil.
    assert (filter (fun rb => rb_title rb = title) (inCategory c runbooks)
            = filter (fun rb => rb_category rb = c ∧ rb_title rb = title) runbooks) as ->.
    { unfold inCategory. rewrite list_filter_filter.
      apply list_filter_iff. intros rb. tauto. }
    destruct c; simpl; by rewrite ?app_nil_r.
  Qed.

End NamedEntries.

(** Claim C4: the entries of [criticalGaps] that carry the name of a
    procedure (category and title) are, in input order, exactly one entry
    for each procedure of that name with fewer than two verified people
    and none for a procedure with two or more: with one verified person
    the entry names that person and recommends cross-training, with none
    it says that no one is verified and recommends assigning and verifying
    training. *)
Theorem critical_gaps_per_procedure (runbooks : list Runbook)
    (training : gmap string (list string)) (c : Category) (title : string) :
  let name := catName c +:+ ": " +:+ title in
  let entry (rb : Runbook) : list Gap :=
    match training !! rb_id rb with
    | Some [u] =>
        [mkGap name ("Single employee (" +:+ u +:+ ") has verified competency")
           "Cross-train additional employee immediately"]
    | Some (_ :: _ :: _) => []
    | _ =>
        [mkGap name "No employees have verified competency"
           "Assign and verify training for at least two employees"]
    end in
  filter (fun g => function g = name)
    (a_criticalGaps (computeBusFactor runbooks training))
  = flat_map entry
      (filter (fun rb => rb_category rb = c ∧ rb_title rb = title) runbooks).
Proof. intros name entry. apply filter_name_gaps. Qed.

(** ** The running minimum *)

Lemma fold_minStep_spec (ns : list nat) (g : option nat) :
  ns ≠ [] ∨ is_Some g →
  ∃ m, fold_left minStep ns g = Some m
       ∧ (∀ n, n ∈ ns → m ≤ n)
       ∧ (∀ m0, g = Some m0 → m ≤ m0)
       ∧ (m ∈ ns ∨ g = Some m).
Proof.
  revert g. induction ns as [|n ns IH]; intros g Hg.
  - destruct Hg as [Hg|[m0 ->]]; [done|].
    exists m0. repeat split.
    + intros n Hn. by apply elem_of_nil in Hn.
    + intros m1 [= ->]. lia.
    + by right.
  - cbn [fold_left].
    assert (∃ x, minStep g n = Some x ∧ x ≤ n
                 ∧ (∀ m0, g = Some m0 → x ≤ m0)
                 ∧ (x = n ∨ g = Some x)) as (x & Hx & Hxn & Hxg & Hxa).
    { unfold minStep, belowMin. destruct g as [m0|].
      - destruct (n <? m0) eqn:E.
        + apply Nat.ltb_lt in E. exists n. repeat split; [lia| |by left].
          intros m1 [= ->]. lia.
        + apply Nat.ltb_ge in E. exists m0. repeat split; [lia| |by right].
          intros m1 [= ->]. lia.
      - exists n. repeat split; [lia|done|by left]. }
    rewrite Hx. destruct (IH (Some x)) as (m & Hm & Hns & Hmx & Hma); [by right; eexists|].
    specialize (Hmx x eq_refl).
    exists m. repeat split; [done| | |].
    + intros k [->|Hk]%elem_of_cons; [lia|by apply Hns].
    + intros m0 Hm0. specialize (Hxg m0 Hm0). lia.
    + destruct Hma as [Hma|[= ->]].
      * left. by apply elem_of_cons; right.
      * destruct Hxa as [->|Hxa]; [left; by apply elem_of_cons; left|by right].
Qed.

Section RunningMinimum.

Variable training : gmap string (list string).
Variable runbooks : list Runbook.

Lemma catMin_empty c g : inCategory c runbooks = [] → catMin training runbooks c g = Some 0.
Proof. unfold catMin. by intros ->. Qed.

Lemma catMin_nonempty c g :
  inCategory c runbooks ≠ [] →
  ∃ m, catMin training runbooks c g = Some m
       ∧ (∀ rb, rb ∈ runbooks → rb_category rb = c → m ≤ trainedCount training rb)
       ∧ (∀ m0, g = Some m0 → m ≤ m0)
       ∧ ((∃ rb, rb ∈ runbooks ∧ rb_category rb = c ∧ trainedCount training rb = m)
          ∨ g = Some m).
Proof.
  intros Hne.
  destruct (fold_minStep_spec (trainedCount training <$> inCategory c runbooks) g)
    as (m & Hm & Hle & Hg & Hat).
  { left. intros H. apply fmap_nil_inv in H. done. }
  exists m. repeat split; [| |done|].
  - unfold catMin. by destruct (inCategory c runbooks).
  - intros rb Hin Hc. apply Hle. apply list_elem_of_fmap_2.
    unfold inCategory. by apply list_elem_of_filter.
  - destruct Hat as [Hat|Hat]; [left|by right].
    apply list_elem_of_fmap in Hat as (rb & -> & Hrb).
    apply list_elem_of_filter in Hrb as [Hc Hin]. by exists rb.
Qed.

Lemma catMin_zero c : catMin training runbooks c (Some 0) = Some 0.
Proof.
  destruct (decide (inCategory c runbooks = [])) as [He|Hne].
  - by apply catMin_empty.
  - destruct (catMin_nonempty c (Some 0) Hne) as (m & -> & _ & Hm & _).
    specialize (Hm 0 eq_refl). f_equal. lia.
Qed.

Lemma fold_catMin_zero (cs : list Category) :
  fold_left (fun g c => catMin training runbooks c g) cs (Some 0) = Some 0.
Proof. induction cs as [|c cs IH]; [done|]. cbn [fold_left]. by rewrite catMin_zero. Qed.

Lemma fold_catMin_empty (cs : list Category) g c :
  c ∈ cs → inCategory c runbooks = [] →
  fold_left (fun g c => catMin training runbooks c g) cs g = Some 0.
Proof.
  intros Hin He. revert g. induction cs as [|d cs IH]; intros g.
  - by apply elem_of_nil in Hin.
  - cbn [fold_left]. destruct (decide (d = c)) as [->|Hne].
    + rewrite (catMin_empty c g He). apply fold_catMin_zero.
    + apply IH. apply elem_of_cons in Hin as [->|Hin]; done.
Qed.

Lemma fold_catMin_nonempty (cs : list Category) g :
  (∀ c, c ∈ cs → inCategory c runbooks ≠ []) →
  cs ≠ [] ∨ is_Some g →
  ∃ m, fold_left (fun g c => catMin training runbooks c g) cs g = Some m
       ∧ (∀ rb, rb ∈ runbooks → rb_category rb ∈ cs → m ≤ trainedCount training rb)
       ∧ (∀ m0, g = Some m0 → m ≤ m0)
       ∧ ((∃ rb, rb ∈ runbooks ∧ rb_category rb ∈ cs ∧ trainedCount training rb = m)
          ∨ g = Some m).
Proof.
  revert g. induction cs as [|c cs IH]; intros g Hne Hg.
  - destruct Hg as [Hg|[m0 ->]]; [done|].
    exists m0. repeat split; [| |by right].
    + intros rb _ Hc. by apply elem_of_nil in Hc.
    + intros m1 [= ->]. lia.
  - cbn [fold_left].
    destruct (catMin_nonempty c g) as (x & Hx & Hxle & Hxg & Hxa).
    { apply Hne. by apply elem_of_cons; left. }
    rewrite Hx.
    destruct (IH (Some x)) as (m & Hm & Hle & Hmx & Hma).
    { intros d Hd. apply Hne. by apply elem_of_cons; right. }
    { right. by eexists. }
    specialize (Hmx x eq_refl).
    exists m. repeat split; [done| | |].
    + intros rb Hin [Hc|Hc]%elem_of_cons.
      * specialize (Hxle rb Hin Hc). lia.
      * by apply Hle.
    + intros m0 Hm0. specialize (Hxg m0 Hm0). lia.
    + destruct Hma as [(rb & Hin & Hc & Hn)|[= ->]].
      * left. exists rb. repeat split; [done| |done]. by apply elem_of_cons; right.
      * destruct Hxa as [(rb & Hin & Hc & Hn)|Hxa]; [left|by right].
        exists rb. repeat split; [done| |done]. by apply elem_of_cons; left.
Qed.

End RunningMinimum.

Lemma elem_of_categories (c : Category) : c ∈ categories.
Proof. unfold categories. destruct c; repeat first [by left | right]. Qed.

Lemma busFactorOf_Some (m : nat) : busFactorOf (Some m) = m.
Proof. by destruct m. Qed.

Lemma computeBusFactor_busFactor runbooks training :
  a_busFactor (computeBusFactor runbooks training)
  = busFactorOf (fold_left (fun g c => catMin training runbooks c g) categories None).
Proof. unfold computeBusFactor. cbn [a_busFactor]. by rewrite runEngine_spec. Qed.

(** With every category populated, [busFactor] is the least trained-user
    count over all runbooks. *)
Lemma busFactor_least_count runbooks training :
  (∀ c, ∃ rb, rb ∈ runbooks ∧ rb_category rb = c) →
  let bf := a_busFactor (computeBusFactor runbooks training) in
  (∃ rb, rb ∈ runbooks ∧ trainedCount training rb = bf)
  ∧ (∀ rb, rb ∈ runbooks → bf ≤ trainedCount training rb).
Proof.
  intros Hall bf. unfold bf. rewrite computeBusFactor_busFactor.
  destruct (fold_catMin_nonempty training runbooks categories None)
    as (m & -> & Hle & _ & Hat).
  { intros c _ He. destruct (Hall c) as (rb & Hin & Hc).
    by apply (proj1 (inCategory_nil c runbooks) He rb). }
  { by left. }
  rewrite busFactorOf_Some. split.
  - destruct Hat as [(rb & Hin & _ & Hn)|?]; [by exists rb|done].
  - intros rb Hin. apply Hle; [done|apply elem_of_categories].
Qed.

Lemma busFactor_empty_category runbooks training c :
  (∀ rb, rb ∈ runbooks → rb_category rb ≠ c) →
  a_busFactor (computeBusFactor runbooks training) = 0.
Proof.
  intros He. apply inCategory_nil in He. rewrite computeBusFactor_busFactor.
  by rewrite (fold_catMin_empty training runbooks categories None c
                (elem_of_categories c) He).
Qed.

Lemma busFactor_unverified runbooks training rb :
  rb ∈ runbooks → trainedCount training rb = 0 →
  a_busFactor (computeBusFactor runbooks training) = 0.
Proof.
  intros Hin H0.
  destruct (decide (Forall (fun c => inCategory c runbooks ≠ []) categories)) as [Hall|Hex].
  - destruct (busFactor_least_count runbooks training) as [_ Hle].
    { intros c. rewrite Forall_forall in Hall.
      specialize (Hall c (elem_of_categories c)).
      destruct (inCategory c runbooks) as [|rb' l] eqn:E; [done|].
      exists rb'.
      assert (rb' ∈ inCategory c runbooks) as Hrb by (rewrite E; by left).
      apply list_elem_of_filter in Hrb. by destruct Hrb. }
    specialize (Hle rb Hin). lia.
  - apply not_Forall_Exists in Hex; [|apply _].
    apply Exists_exists in Hex as (c & _ & Hc).
    apply dec_stable in Hc.
    apply (busFactor_empty_category runbooks training c).
    by apply inCategory_nil.
Qed.

(** ** Coverage and risk level *)

Lemma Qltb_lt (x y : Q) : Qltb x y = true ↔ (x < y)%Q.
Proof.
  unfold Qltb. rewrite negb_true_iff. split.
  - intros H. apply Qnot_le_lt. intros Hle.
    apply Qle_bool_iff in Hle. congruence.
  - intros H. destruct (Qle_bool y x) eqn:E; [|done].
    apply Qle_bool_iff in E. by apply Qlt_not_le in H.
Qed.

Lemma Qltb_ge (x y : Q) : Qltb x y = false ↔ (y <= x)%Q.
Proof.
  unfold Qltb. rewrite negb_false_iff. apply Qle_bool_iff.
Qed.

Lemma riskOf_thresholds (q : Q) :
  ((q < 1 # 2)%Q → riskOf q = critical)
  ∧ ((1 # 2 <= q)%Q ∧ (q < 4 # 5)%Q → riskOf q = high)
  ∧ ((4 # 5 <= q)%Q → riskOf q = low).
Proof.
  unfold riskOf. repeat split.
  - intros H. apply Qltb_lt in H. by rewrite H.
  - intros [H1 H2]. apply Qltb_ge in H1. apply Qltb_lt in H2. by rewrite H1, H2.
  - intros H.
    assert (Qltb q (1 # 2) = false) as ->.
    { apply Qltb_ge. eapply Qle_trans; [|exact H]. by vm_compute. }
    apply Qltb_ge in H. by rewrite H.
Qed.

Lemma coverageOf_ratio (covered total : nat) :
  0 < total →
  (coverageOf covered total == inject_Z (Z.of_nat covered) / inject_Z (Z.of_nat total))%Q.
Proof.
  intros Ht. unfold coverageOf.
  destruct (0 <? total) eqn:E; [|apply Nat.ltb_ge in E; lia].
  rewrite Qmake_Qdiv. destruct total as [|n]; [lia|].
  rewrite <- Pos.of_nat_succ, Zpos_P_of_succ_nat, <- Nat2Z.inj_succ. reflexivity.
Qed.

(** Claim C2: for a category with at least one procedure the score holds
    the ratio covered / total of that category, and its risk level is
    fixed by that ratio alone: below 0.5 critical, from 0.5 and below 0.8
    high, from 0.8 low. *)
Theorem riskLevel_by_coverage (runbooks : list Runbook)
    (training : gmap string (list string)) (c : Category) :
  (∃ rb, rb ∈ runbooks ∧ rb_category rb = c) →
  let procedures := filter (fun rb => rb_category rb = c) runbooks in
  let covered := filter (fun rb => 2 ≤ trainedCount training rb) procedures in
  ∃ s : Score,
    objGet (catName c) (a_scores (computeBusFactor runbooks training)) = Some s
    ∧ (coverage s == inject_Z (Z.of_nat (length covered))
                     / inject_Z (Z.of_nat (length procedures)))%Q
    ∧ ((coverage s < 1 # 2)%Q → riskLevel s = critical)
    ∧ ((1 # 2 <= coverage s)%Q ∧ (coverage s < 4 # 5)%Q → riskLevel s = high)
    ∧ ((4 # 5 <= coverage s)%Q → riskLevel s = low).
Proof.
  intros (rb & Hin & Hc). cbn zeta. fold (inCategory c runbooks).
  exists (catScore training runbooks c). split; [apply computeBusFactor_score|].
  assert (rb ∈ inCategory c runbooks) as Hrb by (by apply list_elem_of_filter).
  unfold catScore.
  destruct (inCategory c runbooks) as [|rb0 l] eqn:E; [by apply elem_of_nil in Hrb|].
  cbn [coverage riskLevel]. split.
  - apply coverageOf_ratio. simpl. lia.
  - apply riskOf_thresholds.
Qed.

Lemma riskLevel_by_coverage_witness :
  ∃ s : Score,
    objGet "finance" (a_scores (computeBusFactor financeOnly financeTraining)) = Some s
    ∧ riskLevel s = low.
Proof.
  destruct (riskLevel_by_coverage financeOnly financeTraining finance)
    as (s & Hs & Hcov & _ & _ & Hlow).
  { eexists. split; [by left|done]. }
  exists s. split; [exact Hs|].
  apply Hlow. rewrite Hcov. by vm_compute.
Defined.

(** ** The scenario with counts 3, 1, 2, 0 *)

Lemma coveredCount_cons training rb l :
  coveredCount training (rb :: l)
  = (if 2 <=? trainedCount training rb then 1 else 0) + coveredCount training l.
Proof.
  unfold coveredCount.
  destruct (2 <=? trainedCount training rb) eqn:E.
  - apply Nat.leb_le in E. by rewrite filter_cons_True by done.
  - apply Nat.leb_gt in E. rewrite filter_cons_False; [done|].
    unfold isCovered. lia.
Qed.

Lemma sizeOf_one (o : option (list string)) : sizeOf o = 1 → ∃ u, o = Some [u].
Proof. destruct o as [[|u [|v s]]|]; simpl; intros H; try done. by exists u. Qed.

Lemma sizeOf_zero (o : option (list string)) : sizeOf o = 0 → o = None ∨ o = Some [].
Proof. destruct o as [[|u s]|]; simpl; intros H; try done; auto. Qed.

(** Claim C3: when a category has exactly four procedures whose
    verified-people counts are 3, 1, 2 and 0, the loop counts 2 covered
    procedures, the category's coverage is exactly 1/2 and its risk level
    is high (not critical), its entries in [criticalGaps] are exactly two,
    one for the count-1 procedure naming its single person and one for the
    count-0 procedure, and the running minimum is 0 after this category,
    so that [busFactor] is 0. *)
Theorem scenario_3_1_2_0 (runbooks : list Runbook)
    (training : gmap string (list string)) (c : Category)
    (rb1 rb2 rb3 rb4 : Runbook) :
  filter (fun rb => rb_category rb = c) runbooks = [rb1; rb2; rb3; rb4] →
  trainedCount training <$> [rb1; rb2; rb3; rb4] = [3; 1; 2; 0] →
  let a := computeBusFactor runbooks training in
  (∀ e, (fold_left (rbStep c training) [rb1; rb2; rb3; rb4] (0, e)).1 = 2)
  ∧ (∃ s, objGet (catName c) (a_scores a) = Some s
          ∧ (coverage s == 1 # 2)%Q ∧ riskLevel s = high)
  ∧ (∃ u, training !! rb_id rb2 = Some [u]
          ∧ filter (fun g => gapOfCategory c g) (a_criticalGaps a)
            = [mkGap (catName c +:+ ": " +:+ rb_title rb2)
                 ("Single employee (" +:+ u +:+ ") has verified competency")
                 "Cross-train additional employee immediately";
               mkGap (catName c +:+ ": " +:+ rb_title rb4)
                 "No employees have verified competency"
                 "Assign and verify training for at least two employees"])
  ∧ (∀ e, globalMinTrained (catStep (runbooksByCategory runbooks) training e c) = Some 0)
  ∧ a_busFactor a = 0.
Proof.
  intros Hcat Hcounts a. fold (inCategory c runbooks) in Hcat.
  injection Hcounts as H1 H2 H3 H4.
  assert (Hcov : coveredCount training [rb1; rb2; rb3; rb4] = 2).
  { rewrite !coveredCount_cons, H1, H2, H3, H4. done. }
  split; [|split; [|split; [|split]]].
  - intros e. rewrite fold_rbStep. cbn [fst]. by rewrite Hcov.
  - exists (catScore training runbooks c). split; [apply computeBusFactor_score|].
    unfold catScore. rewrite Hcat. cbn [coverage riskLevel]. rewrite Hcov.
    by vm_compute.
  - destruct (sizeOf_one _ H2) as [u Hu]. exists u. split; [done|].
    unfold a. rewrite gaps_of_category. unfold catGaps. rewrite Hcat.
    unfold runbookGaps. cbn [flat_map]. rewrite H1, H2, H3, H4. cbn [Nat.ltb Nat.leb app].
    rewrite (runbookGap_cases c rb2), (runbookGap_cases c rb4), Hu.
    by destruct (sizeOf_zero _ H4) as [-> | ->].
  - intros e. rewrite catStep_spec. cbn [globalMinTrained].
    unfold catMin. rewrite Hcat.
    destruct (fold_minStep_spec (trainedCount training <$> [rb1; rb2; rb3; rb4])
                (globalMinTrained e)) as (m & -> & Hle & _); [by left|].
    f_equal. specialize (Hle (trainedCount training rb4)).
    rewrite H4 in Hle. cut (m ≤ 0); [lia|]. apply Hle.
    cbn [fmap list_fmap]. rewrite H4. set_solver.
  - apply (busFactor_unverified runbooks training rb4); [|done].
    assert (rb4 ∈ inCategory c runbooks) as Hrb by (rewrite Hcat; set_solver).
    apply list_elem_of_filter in Hrb. by destruct Hrb.
Qed.

Lemma scenario_3_1_2_0_witness :
  ∃ s, objGet "operations" (a_scores (computeBusFactor opsFour opsTraining)) = Some s
       ∧ (coverage s == 1 # 2)%Q ∧ riskLevel s = high.
Proof.
  refine (proj1 (proj2 (scenario_3_1_2_0 opsFour opsTraining operations
                          (mkRunbook "rb-open" operations "Opening the shop")
                          (mkRunbook "rb-kiln" operations "Kiln shutdown")
                          (mkRunbook "rb-stock" operations "Stock count")
                          (mkRunbook "rb-alarm" operations "Alarm reset") _ _)));
    reflexivity.
Defined.

(** ** Adding a verified person *)

Lemma setAdd_length (u : string) (s : list string) : length s ≤ length (setAdd u s).
Proof.
  unfold setAdd. destruct (decide (u ∈ s)); [done|].
  rewrite length_app. simpl. lia.
Qed.

Lemma trainedCount_addTrained training id u rb :
  trainedCount training rb ≤ trainedCount (addTrained id u training) rb.
Proof.
  unfold trainedCount, addTrained. rewrite lookup_alter.
  destruct (decide (id = rb_id rb)) as [->|_]; [|done].
  destruct (training !! rb_id rb) as [s|]; [|done].
  apply setAdd_length.
Qed.

Section Monotone.

Variables training training' : gmap string (list string).
Hypothesis counts_grow :
  ∀ rb, trainedCount training rb ≤ trainedCount training' rb.

Lemma coveredCount_mono l : coveredCount training l ≤ coveredCount training' l.
Proof.
  induction l as [|rb l IH]; [done|].
  rewrite !coveredCount_cons. specialize (counts_grow rb).
  destruct (2 <=? trainedCount training rb) eqn:E.
  - apply Nat.leb_le in E.
    assert ((2 <=? trainedCount training' rb) = true) as -> by (apply Nat.leb_le; lia).
    lia.
  - destruct (2 <=? trainedCount training' rb); lia.
Qed.

Lemma coverageOf_mono a b total : a ≤ b → (coverageOf a total <= coverageOf b total)%Q.
Proof.
  intros Hab. unfold coverageOf. destruct (0 <? total); [|apply Qle_refl].
  unfold Qle. simpl. apply Z.mul_le_mono_nonneg_r; lia.
Qed.

Lemma riskOf_mono q q' : (q <= q')%Q → riskRank (riskOf q') ≤ riskRank (riskOf q).
Proof.
  intros Hq. unfold riskOf.
  destruct (Qltb q (1 # 2)) eqn:E1.
  - destruct (Qltb q' (1 # 2)); [done|]. destruct (Qltb q' (4 # 5)); simpl; lia.
  - apply Qltb_ge in E1.
    assert (Qltb q' (1 # 2) = false) as ->
      by (apply Qltb_ge; eapply Qle_trans; eassumption).
    destruct (Qltb q (4 # 5)) eqn:E2.
    + destruct (Qltb q' (4 # 5)); simpl; lia.
    + apply Qltb_ge in E2.
      assert (Qltb q' (4 # 5) = false) as ->
        by (apply Qltb_ge; eapply Qle_trans; eassumption).
      done.
Qed.

Lemma catScore_mono runbooks c :
  (coverage (catScore training runbooks c) <= coverage (catScore training' runbooks c))%Q
  ∧ riskRank (riskLevel (catScore training' runbooks c))
    ≤ riskRank (riskLevel (catScore training runbooks c)).
Proof.
  unfold catScore. destruct (inCategory c runbooks) as [|rb l].
  - split; [apply Qle_refl|done].
  - cbn [coverage riskLevel].
    pose proof (coverageOf_mono _ _ (length (rb :: l)) (coveredCount_mono (rb :: l))) as H.
    split; [exact H|by apply riskOf_mono].
Qed.

End Monotone.

(** Claim C8: when a procedure has exactly one verified person and a
    second, different person is added to its verified set (its count goes
    from 1 to 2), the coverage of the category that owns the procedure does
    not decrease and the category's risk level stays or moves toward "low"
    in the order critical, high, low. *)
Theorem coverage_monotone (runbooks : list Runbook)
    (training : gmap string (list string)) (rb : Runbook) (u v : string) :
  rb ∈ runbooks →
  training !! rb_id rb = Some [v] →
  u ≠ v →
  let training' := addTrained (rb_id rb) u training in
  let c := catName (rb_category rb) in
  trainedCount training rb = 1
  ∧ trainedCount training' rb = 2
  ∧ ∃ s s' : Score,
      objGet c (a_scores (computeBusFactor runbooks training)) = Some s
      ∧ objGet c (a_scores (computeBusFactor runbooks training')) = Some s'
      ∧ (coverage s <= coverage s')%Q
      ∧ riskRank (riskLevel s') ≤ riskRank (riskLevel s).
Proof.
  intros Hin Hv Huv training' c. split; [|split].
  - unfold trainedCount. by rewrite Hv.
  - unfold trainedCount, training', addTrained.
    rewrite lookup_alter, decide_True by done. rewrite Hv. simpl.
    unfold setAdd. rewrite decide_False; [done|].
    intros Hu. apply list_elem_of_singleton in Hu. done.
  - exists (catScore training runbooks (rb_category rb)),
           (catScore training' runbooks (rb_category rb)).
    split; [apply computeBusFactor_score|].
    split; [apply computeBusFactor_score|].
    apply catScore_mono. intros rb'. apply trainedCount_addTrained.
Qed.

Lemma coverage_monotone_witness :
  ∃ s s' : Score,
    objGet "operations" (a_scores (computeBusFactor opsFour opsTraining)) = Some s
    ∧ objGet "operations"
        (a_scores (computeBusFactor opsFour (addTrained "rb-kiln" "u-ann" opsTraining)))
      = Some s'
    ∧ (coverage s <= coverage s')%Q
    ∧ riskRank (riskLevel s') ≤ riskRank (riskLevel s).
Proof.
  refine (proj2 (proj2 (coverage_monotone opsFour opsTraining
                          (mkRunbook "rb-kiln" operations "Kiln shutdown")
                          "u-ann" "u-bob" _ _ _))).
  - unfold opsFour. set_solver.
  - reflexivity.
  - discriminate.
Defined.

(** ** Assembling the evidence *)

Lemma extends_refl m : extends m m.
Proof. intros k s Hs. by exists s. Qed.

Lemma extends_trans m1 m2 m3 : extends m1 m2 → extends m2 m3 → extends m1 m3.
Proof.
  intros H12 H23 k s Hs.
  destruct (H12 k s Hs) as (s2 & Hs2 & Hsub2).
  destruct (H23 k s2 Hs2) as (s3 & Hs3 & Hsub3).
  exists s3. split; [done|]. by transitivity s2.
Qed.

Lemma extends_is_Some m m' k : extends m m' → is_Some (m !! k) → is_Some (m' !! k).
Proof. intros He [s Hs]. destruct (He k s Hs) as (s' & Hs' & _). by exists s'. Qed.

Lemma setAdd_elem (u : string) (s : list string) : u ∈ setAdd u s.
Proof.
  unfold setAdd. destruct (decide (u ∈ s)); [done|].
  apply elem_of_app. right. by left.
Qed.

Lemma setAdd_subseteq (u : string) (s : list string) : s ⊆ setAdd u s.
Proof.
  unfold setAdd. destruct (decide (u ∈ s)); [done|].
  intros x Hx. apply elem_of_app. by left.
Qed.

Lemma addTrained_extends k u m : extends m (addTrained k u m).
Proof.
  intros j s Hs. unfold addTrained. rewrite lookup_alter.
  destruct (decide (k = j)) as [->|_].
  - rewrite Hs. eexists. split; [done|]. apply setAdd_subseteq.
  - by exists s.
Qed.

Lemma addTrained_adds k u m :
  is_Some (m !! k) → ∃ s, addTrained k u m !! k = Some s ∧ u ∈ s.
Proof.
  intros [s0 Hs0]. unfold addTrained. rewrite lookup_alter_eq, Hs0.
  eexists. split; [done|]. apply setAdd_elem.
Qed.

Section Folds.

Context {X : Type}.
Variable f : gmap string (list string) → X → gmap string (list string).
Hypothesis f_extends : ∀ m x, extends m (f m x).

Lemma fold_left_extends l m : extends m (fold_left f l m).
Proof.
  revert m. induction l as [|x l IH]; intros m; [apply extends_refl|].
  cbn [fold_left]. eapply extends_trans; [apply f_extends|apply IH].
Qed.

Lemma fold_left_reaches (k u : string) (x : X) l m :
  (∀ m, is_Some (m !! k) → ∃ s, f m x !! k = Some s ∧ u ∈ s) →
  x ∈ l → is_Some (m !! k) →
  ∃ s, fold_left f l m !! k = Some s ∧ u ∈ s.
Proof.
  intros Hx Hin Hk.
  apply list_elem_of_split in Hin as (l1 & l2 & ->).
  rewrite fold_left_app. cbn [fold_left].
  destruct (Hx (fold_left f l1 m)) as (s & Hs & Hu).
  { eapply extends_is_Some; [apply fold_left_extends|done]. }
  destruct (fold_left_extends l2 _ k s Hs) as (s' & Hs' & Hsub).
  exists s'. split; [done|]. by apply Hsub.
Qed.

End Folds.

Lemma initTraining_is_Some runbooks rb :
  rb ∈ runbooks → is_Some (initTraining runbooks !! rb_id rb).
Proof.
  unfold initTraining. generalize (∅ : gmap string (list string)).
  intros m Hin. apply list_elem_of_split in Hin as (l1 & l2 & ->).
  rewrite fold_left_app. cbn [fold_left].
  generalize (fold_left (fun m rb => <[rb_id rb := []]> m) l1 m). clear m.
  intros m.
  assert (is_Some (<[rb_id rb := []]> m !! rb_id rb)) as H
    by (rewrite lookup_insert_eq; by eexists).
  revert H. generalize (<[rb_id rb := []]> m). clear m.
  induction l2 as [|rb' l IH]; intros m Hm; [done|].
  cbn [fold_left]. apply IH. rewrite lookup_insert.
  destruct (decide (rb_id rb' = rb_id rb)); [by eexists|done].
Qed.

Lemma competencyStep_extends user m rb :
  extends m (if competent user rb then addTrained (rb_id rb) (user_id user) m else m).
Proof. destruct (competent user rb); [apply addTrained_extends|apply extends_refl]. Qed.

Lemma addByCompetency_extends runbooks users m :
  extends m (addByCompetency runbooks users m).
Proof.
  unfold addByCompetency. apply fold_left_extends.
  intros m' user. apply fold_left_extends. intros m'' rb.
  apply competencyStep_extends.
Qed.

Lemma addByCompetency_adds runbooks users m user rb :
  user ∈ users → rb ∈ runbooks → competent user rb = true →
  is_Some (m !! rb_id rb) →
  ∃ s, addByCompetency runbooks users m !! rb_id rb = Some s ∧ user_id user ∈ s.
Proof.
  intros Hu Hrb Hc Hm. unfold addByCompetency.
  apply (fold_left_reaches _) with (x := user); [| |done|done].
  - intros m' user'. apply fold_left_extends. intros m'' rb'.
    apply competencyStep_extends.
  - intros m' Hm'.
    apply (fold_left_reaches _) with (x := rb); [| |done|done].
    + intros m'' rb'. apply competencyStep_extends.
    + intros m'' Hm''. rewrite Hc. by apply addTrained_adds.
Qed.

Lemma addByTasks_extends tasks m : extends m (addByTasks tasks m).
Proof.
  unfold addByTasks. apply fold_left_extends. intros m' task.
  destruct (bool_decide _); [apply addTrained_extends|apply extends_refl].
Qed.

Lemma addByKnowledge_extends runbooks users k m :
  extends m (addByKnowledge runbooks users k m).
Proof.
  unfold addByKnowledge. apply fold_left_extends.
  intros m' rb. apply fold_left_extends. intros m'' user.
  destruct (knows k user rb); [apply addTrained_extends|apply extends_refl].
Qed.

(** Claim C9: a person of the organisation whose competency list
    contains "all" is in the verified set of every procedure of the
    catalog, whatever the procedure's category, as is a person whose list
    contains the procedure's own category; either way the person is
    counted. *)
Theorem competency_all_verifies_everywhere (runbooks : list Runbook)
    (users : list User) (tasks : list CompletedTask)
    (fragments : list KnowledgeFragment) (user : User) (comps : list string)
    (rb : Runbook) :
  user ∈ users →
  rb ∈ runbooks →
  competencies user = Some comps →
  "all" ∈ comps ∨ catName (rb_category rb) ∈ comps →
  let training := runbookTraining runbooks users tasks fragments in
  ∃ verified : list string,
    training !! rb_id rb = Some verified
    ∧ user_id user ∈ verified
    ∧ 1 ≤ trainedCount training rb.
Proof.
  intros Hu Hrb Hcomps Htag training.
  assert (competent user rb = true) as Hc.
  { unfold competent. rewrite Hcomps. cbn [default].
    apply orb_true_iff. destruct Htag as [Hall|Hcat].
    - right. by apply bool_decide_eq_true.
    - left. by apply bool_decide_eq_true. }
  destruct (addByCompetency_adds runbooks users (initTraining runbooks) user rb)
    as (s1 & Hs1 & Hin1); [done|done|done|by apply initTraining_is_Some|].
  destruct (addByTasks_extends tasks _ _ _ Hs1) as (s2 & Hs2 & Hsub2).
  destruct (addByKnowledge_extends runbooks users (userCategoryKnowledge fragments)
              _ _ _ Hs2) as (s3 & Hs3 & Hsub3).
  fold (runbookTraining runbooks users tasks fragments) in Hs3. fold training in Hs3.
  exists s3. split; [done|].
  assert (user_id user ∈ s3) as Hin3 by (by apply Hsub3, Hsub2).
  split; [done|].
  unfold trainedCount. rewrite Hs3. simpl.
  destruct s3; [by apply elem_of_nil in Hin3|simpl; lia].
Qed.

Lemma competency_all_verifies_everywhere_witness :
  ∃ verified : list string,
    runbookTraining catalog [owner] [] [] !! "rb-steel" = Some verified
    ∧ "u-own" ∈ verified
    ∧ 1 ≤ trainedCount (runbookTraining catalog [owner] [] [])
            (mkRunbook "rb-steel" vendor_relations "Ordering steel").
Proof.
  refine (competency_all_verifies_everywhere catalog [owner] [] [] owner ["all"]
            (mkRunbook "rb-steel" vendor_relations "Ordering steel") _ _ _ _).
  - set_solver.
  - unfold catalog. set_solver.
  - reflexivity.
  - left. set_solver.
Defined.

(** ** The [GET] handler *)

Lemma getBusFactor_range (random : Q) :
  (0 <= random)%Q → (random < 1)%Q → (1 ≤ getBusFactor random ≤ 3)%Z.
Proof.
  intros H0 H1. unfold getBusFactor.
  assert (0 ≤ Qfloor (random * 3))%Z as Hlo.
  { change 0%Z with (Qfloor 0). apply Qfloor_resp_le.
    apply Qmult_le_0_compat; [done|by vm_compute]. }
  assert (Qfloor (random * 3) < 3)%Z as Hhi.
  { rewrite Zlt_Qlt. eapply Qle_lt_trans; [apply Qfloor_le|].
    change (inject_Z 3) with (1 * 3)%Q. by apply Qmult_lt_compat_r. }
  lia.
Qed.

Lemma GET_busFactor orgId random calculatedAt :
  jsonField "busFactor" (GET orgId random calculatedAt)
  = Some (JNum (inject_Z (getBusFactor random))).
Proof. reflexivity. Qed.

Lemma GET_riskLevel orgId random calculatedAt :
  jsonField "riskLevel" (GET orgId random calculatedAt)
  = Some (JStr (getRiskLevel (getBusFactor random))).
Proof. reflexivity. Qed.

(** ** The response of [POST] *)

Lemma POST_fields env s :
  jsonKeys (POST env s).1 = ["analysisId"; "scores"; "criticalGaps"; "busFactor"]
  ∧ jsonField "analysisId" (POST env s).1 = Some (JStr (uuid env))
  ∧ jsonField "scores" (POST env s).1
    = Some (JObj (prod_map id scoreJson <$> a_scores (analyse s)))
  ∧ jsonField "criticalGaps" (POST env s).1
    = Some (JArr (gapJson <$> a_criticalGaps (analyse s)))
  ∧ jsonField "busFactor" (POST env s).1
    = Some (JNum (inject_Z (Z.of_nat (a_busFactor (analyse s))))).
Proof. by repeat split. Qed.

Lemma riskName_enum (r : RiskLevel) : riskName r ∈ ["low"; "high"; "critical"].
Proof. destruct r; simpl; set_solver. Qed.

Lemma scores_json_shape runbooks training :
  let fields := prod_map id scoreJson <$> a_scores (computeBusFactor runbooks training) in
  fields.*1 = ["operations"; "finance"; "client_management"; "vendor_relations"]
  ∧ ∀ k v, (k, v) ∈ fields →
      ∃ (cov : Q) (risk : string),
        v = JObj [("coverage", JNum cov); ("riskLevel", JStr risk)]
        ∧ risk ∈ ["low"; "high"; "critical"].
Proof.
  intros fields. unfold fields. rewrite computeBusFactor_scores. split; [done|].
  intros k v Hkv. apply list_elem_of_fmap in Hkv as ([k' sc] & [= -> ->] & _).
  exists (coverage sc), (riskName (riskLevel sc)). split; [done|apply riskName_enum].
Qed.

(** Claim C1: in the computation of [POST], [busFactor] is the minimum
    verified-people count over every procedure when each of the four
    categories has a procedure and every procedure has a verified person,
    and it is 0 when some category has no procedure or some procedure has
    no verified person.  The [GET] handler of the same route does not
    compute this: whatever the catalog, its [busFactor] is 1, 2 or 3 and
    never 0. *)
Theorem busFactor_minimum_in_POST_random_in_GET (runbooks : list Runbook)
    (training : gmap string (list string)) :
  let bf := a_busFactor (computeBusFactor runbooks training) in
  ((∀ c, ∃ rb, rb ∈ runbooks ∧ rb_category rb = c) →
   (∀ rb, rb ∈ runbooks → 1 ≤ trainedCount training rb) →
   (∃ rb, rb ∈ runbooks ∧ trainedCount training rb = bf)
   ∧ (∀ rb, rb ∈ runbooks → bf ≤ trainedCount training rb))
  ∧ ((∃ c, ∀ rb, rb ∈ runbooks → rb_category rb ≠ c) → bf = 0)
  ∧ ((∃ rb, rb ∈ runbooks ∧ trainedCount training rb = 0) → bf = 0)
  ∧ (∀ (orgId : string) (random : Q) (calculatedAt : string),
       (0 <= random)%Q → (random < 1)%Q →
       ∃ n : Z,
         jsonField "busFactor" (GET orgId random calculatedAt)
         = Some (JNum (inject_Z n))
         ∧ (1 ≤ n ≤ 3)%Z).
Proof.
  intros bf. split; [|split; [|split]].
  - intros Hall _. by apply busFactor_least_count.
  - intros [c Hc]. by apply (busFactor_empty_category runbooks training c).
  - intros (rb & Hin & H0). by apply (busFactor_unverified runbooks training rb).
  - intros orgId random calculatedAt H0 H1. exists (getBusFactor random).
    split; [apply GET_busFactor|by apply getBusFactor_range].
Qed.

Lemma busFactor_minimum_in_POST_random_in_GET_witness :
  a_busFactor (computeBusFactor financeOnly financeTraining) = 0
  ∧ ∃ n : Z,
      jsonField "busFactor" (GET "7d9f3c1e-5a2b-4c8d-9e1f-0a1b2c3d4e5f" 0 "2024-01-01T00:00:00.000Z")
      = Some (JNum (inject_Z n))
      ∧ (1 ≤ n ≤ 3)%Z.
Proof.
  destruct (busFactor_minimum_in_POST_random_in_GET financeOnly financeTraining)
    as (_ & Hempty & _ & Hget).
  split.
  - apply Hempty. exists operations. intros rb Hin.
    apply list_elem_of_singleton in Hin. by subst rb.
  - apply Hget; by vm_compute.
Defined.

(** Claim C6: the computation of [POST] is a function of the snapshot:
    two invocations on the same snapshot return and store the same
    [scores], the same [criticalGaps] in the same order and the same
    [busFactor], whatever identifier and timestamp each invocation draws.
    The [GET] handler is not: for one organisation and one instant, the
    draws 0 and 1/2 of [Math.random()] give the bus factors 1 and 2. *)
Theorem POST_deterministic_GET_random (s : Snapshot) (env1 env2 : Env)
    (orgId calculatedAt : string) :
  (jsonField "scores" (POST env1 s).1 = jsonField "scores" (POST env2 s).1
   ∧ jsonField "criticalGaps" (POST env1 s).1 = jsonField "criticalGaps" (POST env2 s).1
   ∧ jsonField "busFactor" (POST env1 s).1 = jsonField "busFactor" (POST env2 s).1
   ∧ row_scores (POST env1 s).2 = row_scores (POST env2 s).2
   ∧ row_critical_gaps (POST env1 s).2 = row_critical_gaps (POST env2 s).2
   ∧ row_bus_factor (POST env1 s).2 = row_bus_factor (POST env2 s).2)
  ∧ jsonField "busFactor" (GET orgId 0 calculatedAt) = Some (JNum (inject_Z 1))
  ∧ jsonField "busFactor" (GET orgId (1 # 2) calculatedAt) = Some (JNum (inject_Z 2))
  ∧ jsonField "busFactor" (GET orgId 0 calculatedAt)
    ≠ jsonField "busFactor" (GET orgId (1 # 2) calculatedAt).
Proof.
  split; [|split; [|split]].
  - destruct (POST_fields env1 s) as (_ & _ & -> & -> & ->).
    destruct (POST_fields env2 s) as (_ & _ & -> & -> & ->).
    by repeat split.
  - reflexivity.
  - reflexivity.
  - rewrite !GET_busFactor. intros H. discriminate H.
Qed.

(** Claim C7: the response of [POST] is an object with exactly the keys
    analysisId, scores, criticalGaps and busFactor; [scores] has exactly
    the four category keys, each with a coverage number and a risk level
    among "low", "high" and "critical"; every gap has the three string
    fields; [busFactor] is a natural number.  The response of [GET] has
    other keys, and its risk level is "medium" for the draw 3/4. *)
Theorem POST_response_shape_GET_differs (s : Snapshot) (env : Env)
    (orgId calculatedAt : string) (random : Q) :
  let response := (POST env s).1 in
  jsonKeys response = ["analysisId"; "scores"; "criticalGaps"; "busFactor"]
  ∧ (∃ fields : list (string * json),
       jsonField "scores" response = Some (JObj fields)
       ∧ fields.*1 = ["operations"; "finance"; "client_management"; "vendor_relations"]
       ∧ ∀ k v, (k, v) ∈ fields →
           ∃ (cov : Q) (risk : string),
             v = JObj [("coverage", JNum cov); ("riskLevel", JStr risk)]
             ∧ risk ∈ ["low"; "high"; "critical"])
  ∧ (∃ gaps : list json,
       jsonField "criticalGaps" response = Some (JArr gaps)
       ∧ ∀ g, g ∈ gaps →
           ∃ f p a : string,
             g = JObj [("function", JStr f); ("singlePointOfFailure", JStr p);
                       ("recommendedAction", JStr a)])
  ∧ (∃ n : nat, jsonField "busFactor" response = Some (JNum (inject_Z (Z.of_nat n))))
  ∧ jsonKeys (GET orgId random calculatedAt)
    = ["orgId"; "busFactor"; "riskLevel"; "criticalPersons"; "recommendations";
       "calculatedAt"]
  ∧ jsonField "riskLevel" (GET orgId (3 # 4) calculatedAt) = Some (JStr "medium").
Proof.
  intros response. unfold response.
  destruct (POST_fields env s) as (Hkeys & _ & Hscores & Hgaps & Hbf).
  split; [exact Hkeys|]. split; [|split; [|split; [|split]]].
  - eexists. split; [exact Hscores|]. apply scores_json_shape.
  - eexists. split; [exact Hgaps|].
    intros g Hg. apply list_elem_of_fmap in Hg as (gap & -> & _).
    by exists (function gap), (singlePointOfFailure gap), (recommendedAction gap).
  - by eexists.
  - reflexivity.
  - reflexivity.
Qed.

(** * Further properties *)

(** ** The verified sets *)

Lemma fold_left_invariant {A X} (P : A → Prop) (f : A → X → A) (l : list X) (a : A) :
  P a → (∀ a x, x ∈ l → P a → P (f a x)) → P (fold_left f l a).
Proof.
  revert a. induction l as [|x l IH]; intros a Ha Hf; [done|].
  cbn [fold_left]. apply IH.
  - apply Hf; [by left|done].
  - intros a' x' Hx'. apply Hf. by right.
Qed.

Lemma elem_of_setAdd {A} `{EqDecision A} (x y : A) (s : list A) :
  x ∈ setAdd y s ↔ x = y ∨ x ∈ s.
Proof.
  unfold setAdd. destruct (decide (y ∈ s)) as [Hy|Hy].
  - split; [by right|]. intros [->|H]; done.
  - rewrite elem_of_app, list_elem_of_singleton. tauto.
Qed.

Lemma NoDup_setAdd {A} `{EqDecision A} (y : A) (s : list A) :
  NoDup s → NoDup (setAdd y s).
Proof.
  intros Hs. unfold setAdd. destruct (decide (y ∈ s)) as [Hy|Hy]; [done|].
  apply NoDup_app. split; [done|]. split; [|apply NoDup_singleton].
  intros x Hx Hxy. apply list_elem_of_singleton in Hxy. by subst.
Qed.

Lemma competent_tags user rb :
  competent user rb = true
  ↔ ∃ comps, competencies user = Some comps
             ∧ ("all" ∈ comps ∨ catName (rb_category rb) ∈ comps).
Proof.
  unfold competent. rewrite orb_true_iff, !bool_decide_eq_true. split.
  - destruct (competencies user) as [comps|]; cbn [default].
    + intros H. exists comps. tauto.
    + intros [H|H]; by apply elem_of_nil in H.
  - intros (comps & -> & H). cbn [default]. tauto.
Qed.

(** The knowledge map holds, per user id, the categories of that
    user's fragments. *)
Lemma userCategoryKnowledge_elem fragments uid c :
  c ∈ default [] (userCategoryKnowledge fragments !! uid)
  ↔ ∃ kf, kf ∈ fragments ∧ kf_user_id kf = uid ∧ kf_category kf = c.
Proof.
  unfold userCategoryKnowledge.
  set (g := fun (k : gmap string (list Category)) kf =>
    alter (setAdd (kf_category kf)) (kf_user_id kf)
      (if bool_decide (is_Some (k !! kf_user_id kf)) then k
       else <[kf_user_id kf := []]> k)).
  assert (Hstep : ∀ k kf,
    default [] (g k kf !! uid)
    = if decide (kf_user_id kf = uid)
      then setAdd (kf_category kf) (default [] (k !! uid))
      else default [] (k !! uid)).
  { intros k kf. unfold g. rewrite lookup_alter.
    destruct (decide (kf_user_id kf = uid)) as [->|Hne].
    - destruct (k !! uid) as [s|] eqn:E.
      + rewrite bool_decide_eq_true_2 by (by eexists). by rewrite E.
      + rewrite bool_decide_eq_false_2 by (intros [? ?]; congruence).
        by rewrite lookup_insert_eq.
    - destruct (bool_decide _); [done|]. by rewrite lookup_insert_ne. }
  assert (Hgen : ∀ k,
    c ∈ default [] (fold_left g fragments k !! uid)
    ↔ c ∈ default [] (k !! uid)
      ∨ ∃ kf, kf ∈ fragments ∧ kf_user_id kf = uid ∧ kf_category kf = c).
  { induction fragments as [|kf l IH]; intros k.
    - cbn [fold_left]. split; [by left|].
      intros [H|(kf & H & _)]; [done|by apply elem_of_nil in H].
    - cbn [fold_left]. rewrite IH, Hstep. split.
      + intros [H|(kf' & Hin & Hu & Hc)].
        * destruct (decide (kf_user_id kf = uid)) as [Heq|Hne]; [|by left].
          apply elem_of_setAdd in H as [->|H]; [|by left].
          right. exists kf. split; [by left|done].
        * right. exists kf'. split; [by right|done].
      + intros [H|(kf' & Hin & Hu & Hc)].
        * left. destruct (decide (kf_user_id kf = uid)); [|done].
          apply elem_of_setAdd. by right.
        * apply elem_of_cons in Hin as [->|Hin].
          -- left. rewrite decide_True by done. apply elem_of_setAdd. by left.
          -- right. by exists kf'. }
  rewrite Hgen, lookup_empty. cbn [default]. split.
  - intros [H|H]; [by apply elem_of_nil in H|done].
  - intros H. by right.
Qed.

Lemma knows_fragment fragments user rb :
  knows (userCategoryKnowledge fragments) user rb = true
  ↔ ∃ kf, kf ∈ fragments ∧ kf_user_id kf = user_id user
          ∧ kf_category kf = rb_category rb.
Proof.
  rewrite <- userCategoryKnowledge_elem. unfold knows.
  destruct (userCategoryKnowledge fragments !! user_id user) as [cats|]; cbn [default].
  - apply bool_decide_eq_true.
  - split; [done|]. intros H. by apply elem_of_nil in H.
Qed.

Lemma initTraining_lookup runbooks k :
  initTraining runbooks !! k
  = if decide (k ∈ rb_id <$> runbooks) then Some [] else None.
Proof.
  unfold initTraining.
  assert (Hgen : ∀ m : gmap string (list string),
    fold_left (fun m rb => <[rb_id rb := []]> m) runbooks m !! k
    = if decide (k ∈ rb_id <$> runbooks) then Some [] else m !! k).
  { induction runbooks as [|rb l IH]; intros m; [done|].
    cbn [fold_left]. rewrite IH. rewrite fmap_cons.
    destruct (decide (k ∈ rb_id <$> l)) as [Hin|Hnin].
    - rewrite decide_True; [done|]. by right.
    - destruct (decide (rb_id rb = k)) as [<-|Hne].
      + rewrite lookup_insert_eq. rewrite decide_True; [done|]. by left.
      + rewrite lookup_insert_ne by done. rewrite decide_False; [done|].
        intros [?|?]%elem_of_cons; congruence. }
  rewrite Hgen. by rewrite lookup_empty.
Qed.

Section Assembly.

Variables (runbooks : list Runbook) (users : list User)
  (tasks : list CompletedTask) (fragments : list KnowledgeFragment).

(** The three phases keep a property of the map that every
    [addTrained] keeps. *)
Lemma phases_invariant (P : gmap string (list string) → Prop) :
  (∀ k u m, P m → P (addTrained k u m)) →
  P (initTraining runbooks) →
  P (runbookTraining runbooks users tasks fragments).
Proof.
  intros Hadd Hinit. unfold runbookTraining, addByKnowledge, addByTasks, addByCompetency.
  apply fold_left_invariant.
  - apply fold_left_invariant.
    + apply fold_left_invariant; [done|].
      intros m user _ Hm. apply fold_left_invariant; [done|].
      intros m' rb _ Hm'. destruct (competent user rb); [by apply Hadd|done].
    + intros m task _ Hm. destruct (bool_decide _); [by apply Hadd|done].
  - intros m rb _ Hm. apply fold_left_invariant; [done|].
    intros m' user _ Hm'. destruct (knows _ user rb); [by apply Hadd|done].
Qed.

(** Property X1: the keys of [runbookTraining] are the ids of the runbooks: every
    runbook has a set, and a completed task of an unknown runbook creates
    none. *)
Theorem runbookTraining_keys (k : string) :
  is_Some (runbookTraining runbooks users tasks fragments !! k)
  ↔ ∃ rb, rb ∈ runbooks ∧ rb_id rb = k.
Proof.
  assert (is_Some (runbookTraining runbooks users tasks fragments !! k)
          ↔ k ∈ rb_id <$> runbooks) as ->.
  { apply (phases_invariant (fun m => is_Some (m !! k) ↔ k ∈ rb_id <$> runbooks)).
    - intros k' u m Hm. unfold addTrained. by rewrite lookup_alter_is_Some.
    - rewrite initTraining_lookup. destruct (decide (k ∈ rb_id <$> runbooks)).
      + split; [done|]. by eexists.
      + split; [|done]. intros [? ?]. done. }
  rewrite list_elem_of_fmap. split; intros (rb & H1 & H2); exists rb; done.
Qed.

(** Property X2: every set of [runbookTraining] is free of duplicates, so that its
    size counts persons. *)
Theorem runbookTraining_NoDup (k : string) (s : list string) :
  runbookTraining runbooks users tasks fragments !! k = Some s → NoDup s.
Proof.
  revert k s.
  apply (phases_invariant (fun m => ∀ k s, m !! k = Some s → NoDup s)).
  - intros k' u m Hm k s. unfold addTrained. rewrite lookup_alter.
    destruct (decide (k' = k)) as [->|_]; [|apply Hm].
    destruct (m !! k) as [s0|] eqn:E; [|done].
    intros [= <-]. apply NoDup_setAdd. by apply (Hm k).
  - intros k s. rewrite initTraining_lookup.
    destruct (decide _); [|done]. intros [= <-]. apply NoDup_nil_2.
Qed.

End Assembly.

Lemma addTrained_sound (J : string → string → Prop) k u (m : gmap string (list string)) :
  (∀ k' s x, m !! k' = Some s → x ∈ s → J k' x) →
  J k u →
  ∀ k' s x, addTrained k u m !! k' = Some s → x ∈ s → J k' x.
Proof.
  intros Hm Hku k' s x. unfold addTrained. rewrite lookup_alter.
  destruct (decide (k = k')) as [->|_]; [|apply Hm].
  destruct (m !! k') as [s0|] eqn:E; [|done].
  intros [= <-] [->|Hx]%elem_of_setAdd; [done|]. by apply (Hm k' s0).
Qed.

Lemma addByTasks_adds tasks m task :
  task ∈ tasks → is_Some (m !! runbook_id task) →
  ∃ s, addByTasks tasks m !! runbook_id task = Some s ∧ assignee_id task ∈ s.
Proof.
  intros Hin Hm. unfold addByTasks.
  apply (fold_left_reaches _) with (x := task); [| |done|done].
  - intros m' task'. destruct (bool_decide _); [apply addTrained_extends|apply extends_refl].
  - intros m' Hm'. rewrite bool_decide_eq_true_2 by done. by apply addTrained_adds.
Qed.

Lemma knowledgeStep_extends k rb m user :
  extends m (if knows k user rb then addTrained (rb_id rb) (user_id user) m else m).
Proof. destruct (knows k user rb); [apply addTrained_extends|apply extends_refl]. Qed.

Lemma addByKnowledge_adds runbooks users k m user rb :
  user ∈ users → rb ∈ runbooks → knows k user rb = true →
  is_Some (m !! rb_id rb) →
  ∃ s, addByKnowledge runbooks users k m !! rb_id rb = Some s ∧ user_id user ∈ s.
Proof.
  intros Hu Hrb Hk Hm. unfold addByKnowledge.
  apply (fold_left_reaches _) with (x := rb); [| |done|done].
  - intros m' rb'. apply fold_left_extends. intros m'' user'.
    apply knowledgeStep_extends.
  - intros m' Hm'.
    apply (fold_left_reaches _) with (x := user); [| |done|done].
    + intros m'' user'. apply knowledgeStep_extends.
    + intros m'' Hm''. rewrite Hk. by apply addTrained_adds.
Qed.

(** Property X3: a person is in the verified set of a runbook id exactly when one of
    the three sources attests it: a user of the organisation with the
    tag "all" or the category of a runbook of that id; the assignee of a
    completed task of that runbook; a user of the organisation with a
    knowledge fragment of the category of a runbook of that id. *)
Theorem verified_iff_evidence (runbooks : list Runbook) (users : list User)
    (tasks : list CompletedTask) (fragments : list KnowledgeFragment)
    (k u : string) :
  (∃ s, runbookTraining runbooks users tasks fragments !! k = Some s ∧ u ∈ s)
  ↔ (∃ user rb comps,
       user ∈ users ∧ rb ∈ runbooks ∧ rb_id rb = k ∧ user_id user = u
       ∧ competencies user = Some comps
       ∧ ("all" ∈ comps ∨ catName (rb_category rb) ∈ comps))
    ∨ (∃ task rb,
         task ∈ tasks ∧ rb ∈ runbooks ∧ rb_id rb = k
         ∧ runbook_id task = k ∧ assignee_id task = u)
    ∨ (∃ user rb kf,
         user ∈ users ∧ rb ∈ runbooks ∧ kf ∈ fragments ∧ rb_id rb = k
         ∧ user_id user = u ∧ kf_user_id kf = u
         ∧ kf_category kf = rb_category rb).
Proof.
  set (J := fun k u : string =>
    (∃ user rb comps,
       user ∈ users ∧ rb ∈ runbooks ∧ rb_id rb = k ∧ user_id user = u
       ∧ competencies user = Some comps
       ∧ ("all" ∈ comps ∨ catName (rb_category rb) ∈ comps))
    ∨ (∃ task rb,
         task ∈ tasks ∧ rb ∈ runbooks ∧ rb_id rb = k
         ∧ runbook_id task = k ∧ assignee_id task = u)
    ∨ (∃ user rb kf,
         user ∈ users ∧ rb ∈ runbooks ∧ kf ∈ fragments ∧ rb_id rb = k
         ∧ user_id user = u ∧ kf_user_id kf = u
         ∧ kf_category kf = rb_category rb)).
  change ((∃ s, runbookTraining runbooks users tasks fragments !! k = Some s ∧ u ∈ s)
          ↔ J k u).
  split.
  - set (Inv := fun m : gmap string (list string) =>
      (∀ k, is_Some (m !! k) → ∃ rb, rb ∈ runbooks ∧ rb_id rb = k)
      ∧ (∀ k s u, m !! k = Some s → u ∈ s → J k u)).
    assert (Hadd : ∀ m k u, Inv m → J k u → Inv (addTrained k u m)).
    { intros m k' u' [Hdom Hsound] HJ. split.
      - intros k0. unfold addTrained. rewrite lookup_alter_is_Some. apply Hdom.
      - by apply addTrained_sound. }
    assert (Inv (runbookTraining runbooks users tasks fragments)) as [_ Hsound].
    { unfold runbookTraining, addByKnowledge, addByTasks, addByCompetency.
      apply (fold_left_invariant Inv).
      - apply (fold_left_invariant Inv).
        + apply (fold_left_invariant Inv).
          * split.
            -- intros k0. rewrite initTraining_lookup.
               destruct (decide (k0 ∈ rb_id <$> runbooks)) as [Hin|]; [|by intros [? ?]].
               intros _. apply list_elem_of_fmap in Hin as (rb & -> & Hrb). by exists rb.
            -- intros k0 s0 u0. rewrite initTraining_lookup.
               destruct (decide _); [|done]. intros [= <-] H. by apply elem_of_nil in H.
          * intros m user Huser Hm. apply (fold_left_invariant Inv); [done|].
            intros m' rb Hrb Hm'. destruct (competent user rb) eqn:Hc; [|done].
            apply Hadd; [done|].
            apply competent_tags in Hc as (comps & Hcomps & Htag).
            left. by exists user, rb, comps.
        + intros m task Htask Hm.
          destruct (bool_decide (is_Some (m !! runbook_id task))) eqn:Hhas; [|done].
          apply Hadd; [done|].
          apply bool_decide_eq_true in Hhas.
          destruct (proj1 Hm _ Hhas) as (rb & Hrb & Hid).
          right. left. by exists task, rb.
      - intros m rb Hrb Hm. apply (fold_left_invariant Inv); [done|].
        intros m' user Huser Hm'.
        destruct (knows (userCategoryKnowledge fragments) user rb) eqn:Hk; [|done].
        apply Hadd; [done|].
        apply knows_fragment in Hk as (kf & Hkf & Hu & Hc).
        right. right. by exists user, rb, kf. }
    intros (s & Hs & Hu). by apply (Hsound k s u).
  - intros [(user & rb & comps & Huser & Hrb & <- & <- & Hcomps & Htag)
           |[(task & rb & Htask & Hrb & <- & Hid & <-)
            |(user & rb & kf & Huser & Hrb & Hkf & <- & <- & Hu & Hc)]].
    + destruct (addByCompetency_adds runbooks users (initTraining runbooks) user rb)
        as (s1 & Hs1 & Hin1); [done|done| |by apply initTraining_is_Some|].
      { apply competent_tags. by exists comps. }
      destruct (addByTasks_extends tasks _ _ _ Hs1) as (s2 & Hs2 & Hsub2).
      destruct (addByKnowledge_extends runbooks users (userCategoryKnowledge fragments)
                  _ _ _ Hs2) as (s3 & Hs3 & Hsub3).
      exists s3. split; [done|]. by apply Hsub3, Hsub2.
    + destruct (addByTasks_adds tasks
                  (addByCompetency runbooks users (initTraining runbooks)) task)
        as (s2 & Hs2 & Hin2); [done| |].
      { rewrite Hid. eapply extends_is_Some; [apply addByCompetency_extends|].
        by apply initTraining_is_Some. }
      destruct (addByKnowledge_extends runbooks users (userCategoryKnowledge fragments)
                  _ _ _ Hs2) as (s3 & Hs3 & Hsub3).
      rewrite Hid in Hs3. exists s3. split; [done|]. by apply Hsub3.
    + apply (addByKnowledge_adds runbooks users); [done|done| |].
      * apply knows_fragment. by exists kf.
      * eapply extends_is_Some; [apply addByTasks_extends|].
        eapply extends_is_Some; [apply addByCompetency_extends|].
        by apply initTraining_is_Some.
Qed.

(** ** Bounds of the analysis *)

Lemma populated_or_empty (runbooks : list Runbook) :
  (∀ c, ∃ rb, rb ∈ runbooks ∧ rb_category rb = c)
  ∨ (∃ c, ∀ rb, rb ∈ runbooks → rb_category rb ≠ c).
Proof.
  destruct (decide (Forall (fun c => inCategory c runbooks ≠ []) categories)) as [Hall|Hex].
  - left. intros c. rewrite Forall_forall in Hall.
    specialize (Hall c (elem_of_categories c)).
    destruct (inCategory c runbooks) as [|rb l] eqn:E; [done|].
    exists rb. assert (rb ∈ inCategory c runbooks) as Hrb by (rewrite E; by left).
    apply list_elem_of_filter in Hrb. by destruct Hrb.
  - right. apply not_Forall_Exists in Hex; [|apply _].
    apply Exists_exists in Hex as (c & _ & Hc). apply dec_stable in Hc.
    exists c. by apply inCategory_nil.
Qed.

(** Property X4: the bus factor never exceeds the verified count of any runbook,
    and it is positive only when every category has a runbook. *)
Theorem busFactor_upper_bound (runbooks : list Runbook)
    (training : gmap string (list string)) :
  let bf := a_busFactor (computeBusFactor runbooks training) in
  (∀ rb, rb ∈ runbooks → bf ≤ trainedCount training rb)
  ∧ (0 < bf → ∀ c, ∃ rb, rb ∈ runbooks ∧ rb_category rb = c).
Proof.
  intros bf. unfold bf.
  destruct (populated_or_empty runbooks) as [Hall|[c Hc]].
  - split; [|done]. by apply busFactor_least_count.
  - rewrite (busFactor_empty_category runbooks training c Hc). split; [|lia].
    intros rb _. lia.
Qed.

Lemma coveredCount_le training l : coveredCount training l ≤ length l.
Proof. unfold coveredCount. apply length_filter. Qed.

Lemma Zpos_of_nat_S (n : nat) : Z.pos (Pos.of_nat (S n)) = Z.of_nat (S n).
Proof. by rewrite <- Pos.of_nat_succ, Zpos_P_of_succ_nat, <- Nat2Z.inj_succ. Qed.

Lemma coverageOf_bounds covered total :
  covered ≤ total → (0 <= coverageOf covered total)%Q ∧ (coverageOf covered total <= 1)%Q.
Proof.
  intros Hle. unfold coverageOf. destruct total as [|n]; [by vm_compute|].
  cbn [Nat.ltb Nat.leb]. unfold Qle. cbn [Qnum Qden].
  rewrite Zpos_of_nat_S. split; lia.
Qed.

(** Property X5: every coverage in [scores] lies between 0 and 1. *)
Theorem coverage_in_unit_interval (runbooks : list Runbook)
    (training : gmap string (list string)) (k : string) (s : Score) :
  (k, s) ∈ a_scores (computeBusFactor runbooks training) →
  (0 <= coverage s)%Q ∧ (coverage s <= 1)%Q.
Proof.
  rewrite computeBusFactor_scores. intros H.
  apply list_elem_of_fmap in H as (c & [= -> ->] & _).
  unfold catScore. destruct (inCategory c runbooks) as [|rb l]; [by vm_compute|].
  cbn [coverage]. apply coverageOf_bounds, coveredCount_le.
Qed.

Lemma coverage_in_unit_interval_witness :
  (0 <= coverage (mkScore 1 low))%Q ∧ (coverage (mkScore 1 low) <= 1)%Q.
Proof.
  apply (coverage_in_unit_interval financeOnly financeTraining "finance").
  rewrite run_finance_only. cbn [a_scores]. set_solver.
Defined.

(** ** No gap *)

Lemma catGaps_nil training runbooks c :
  catGaps training runbooks c = []
  ↔ inCategory c runbooks ≠ []
    ∧ ∀ rb, rb ∈ inCategory c runbooks → 2 ≤ trainedCount training rb.
Proof.
  unfold catGaps. destruct (inCategory c runbooks) as [|rb0 l] eqn:E.
  - split; [done|]. by intros [? _].
  - rewrite runbookGaps_filter. split.
    + intros H. apply fmap_nil_inv in H. split; [done|].
      intros rb Hrb. destruct (decide (trainedCount training rb < 2)) as [Hlt|]; [|lia].
      assert (rb ∈ filter (fun rb => trainedCount training rb < 2) (rb0 :: l)) as Hf
        by (by apply list_elem_of_filter).
      rewrite H in Hf. by apply elem_of_nil in Hf.
    + intros [_ H]. rewrite (filter_none _ (rb0 :: l)); [done|].
      apply Forall_forall. intros rb Hrb. specialize (H rb Hrb). lia.
Qed.

Lemma gaps_nil_iff runbooks training :
  a_criticalGaps (computeBusFactor runbooks training) = []
  ↔ ∀ c, catGaps training runbooks c = [].
Proof.
  rewrite computeBusFactor_gaps. unfold categories. cbn [fmap list_fmap concat].
  split.
  - intros H c.
    apply app_eq_nil in H as [H1 H]. apply app_eq_nil in H as [H2 H].
    apply app_eq_nil in H as [H3 H]. apply app_eq_nil in H as [H4 _].
    by destruct c.
  - intros H. by rewrite !H.
Qed.

(** Property X6: [criticalGaps] is empty exactly when the bus factor is at least 2;
    every category then has coverage 1 and risk level low. *)
Theorem no_gap_iff_bus_factor_two (runbooks : list Runbook)
    (training : gmap string (list string)) :
  let a := computeBusFactor runbooks training in
  (a_criticalGaps a = [] ↔ 2 ≤ a_busFactor a)
  ∧ (a_criticalGaps a = [] →
     ∀ k s, (k, s) ∈ a_scores a → (coverage s == 1)%Q ∧ riskLevel s = low).
Proof.
  intros a. unfold a. split; [split|].
  - intros H. pose proof (proj1 (gaps_nil_iff runbooks training) H) as Hc.
    destruct (busFactor_least_count runbooks training) as [(rb & Hin & Hbf) _].
    { intros c. destruct (proj1 (catGaps_nil training runbooks c) (Hc c)) as [Hne _].
      destruct (inCategory c runbooks) as [|rb l] eqn:E; [done|].
      exists rb. assert (rb ∈ inCategory c runbooks) as Hrb by (rewrite E; by left).
      apply list_elem_of_filter in Hrb. by destruct Hrb. }
    rewrite <- Hbf.
    apply (proj1 (catGaps_nil training runbooks (rb_category rb)) (Hc _)).
    by apply list_elem_of_filter.
  - intros Hbf. apply gaps_nil_iff. intros c. apply catGaps_nil.
    destruct (busFactor_upper_bound runbooks training) as [Hle Hpop].
    split.
    + destruct (Hpop ltac:(lia) c) as (rb & Hin & Hcat).
      intros He. by apply (proj1 (inCategory_nil c runbooks) He rb).
    + intros rb Hrb. apply list_elem_of_filter in Hrb as [_ Hin].
      specialize (Hle rb Hin). lia.
  - intros H k s Hks. rewrite computeBusFactor_scores in Hks.
    apply list_elem_of_fmap in Hks as (c & [= -> ->] & _).
    pose proof (proj1 (gaps_nil_iff runbooks training) H c) as Hc.
    apply catGaps_nil in Hc as [Hne Hall].
    unfold catScore. destruct (inCategory c runbooks) as [|rb l]; [done|].
    cbn [coverage riskLevel].
    assert (coveredCount training (rb :: l) = length (rb :: l)) as ->.
    { unfold coveredCount. rewrite filter_all; [done|].
      apply Forall_forall. intros rb' Hrb'. by apply Hall. }
    assert (coverageOf (length (rb :: l)) (length (rb :: l)) == 1)%Q as Hone.
    { unfold coverageOf. cbn [length Nat.ltb Nat.leb]. unfold Qeq. cbn [Qnum Qden].
      rewrite Zpos_of_nat_S. lia. }
    split; [exact Hone|].
    apply riskOf_thresholds. rewrite Hone. by vm_compute.
Qed.

Lemma no_gap_iff_bus_factor_two_witness :
  a_criticalGaps (computeBusFactor catalog catalogTraining) = [].
Proof.
  apply (proj1 (no_gap_iff_bus_factor_two catalog catalogTraining)).
  rewrite run_catalog_staffed. cbn [a_busFactor]. lia.
Defined.

Lemma busFactor_upper_bound_witness :
  a_busFactor (computeBusFactor catalog catalogTraining)
  ≤ trainedCount catalogTraining (mkRunbook "rb-quote" client_management "Quoting a job").
Proof.
  apply (proj1 (busFactor_upper_bound catalog catalogTraining)).
  unfold catalog. set_solver.
Defined.

(** ** The order of the rows *)

Section RowOrder.

Variable training : gmap string (list string).
Variables runbooks runbooks' : list Runbook.
Hypothesis same_rows : runbooks ≡ₚ runbooks'.

Lemma inCategory_Permutation c : inCategory c runbooks ≡ₚ inCategory c runbooks'.
Proof. unfold inCategory. by rewrite same_rows. Qed.

Lemma catScore_Permutation c :
  catScore training runbooks c = catScore training runbooks' c.
Proof.
  unfold catScore. pose proof (inCategory_Permutation c) as Hp.
  destruct (inCategory c runbooks) as [|rb l] eqn:E.
  - apply Permutation_nil_l in Hp. by rewrite <- Hp.
  - destruct (inCategory c runbooks') as [|rb' l'] eqn:E'.
    + by apply Permutation_nil_r in Hp.
    + assert (coveredCount training (rb :: l) = coveredCount training (rb' :: l')) as ->.
      { unfold coveredCount. by rewrite Hp. }
      assert (length (rb :: l) = length (rb' :: l')) as -> by (by rewrite Hp).
      done.
Qed.

Lemma catGaps_Permutation c :
  catGaps training runbooks c ≡ₚ catGaps training runbooks' c.
Proof.
  unfold catGaps. pose proof (inCategory_Permutation c) as Hp.
  destruct (inCategory c runbooks) as [|rb l] eqn:E.
  - apply Permutation_nil_l in Hp. by rewrite <- Hp.
  - destruct (inCategory c runbooks') as [|rb' l'] eqn:E'.
    + by apply Permutation_nil_r in Hp.
    + rewrite !runbookGaps_filter. by rewrite Hp.
Qed.

Lemma busFactor_Permutation :
  a_busFactor (computeBusFactor runbooks training)
  = a_busFactor (computeBusFactor runbooks' training).
Proof.
  destruct (populated_or_empty runbooks) as [Hall|[c Hc]].
  - destruct (busFactor_least_count runbooks training Hall) as [(rb & Hin & Hbf) Hle].
    destruct (busFactor_least_count runbooks' training) as [(rb' & Hin' & Hbf') Hle'].
    { intros c. destruct (Hall c) as (rb0 & Hin0 & Hc0). exists rb0.
      split; [by rewrite <- same_rows|done]. }
    rewrite same_rows in Hin. rewrite <- same_rows in Hin'.
    specialize (Hle rb' Hin'). specialize (Hle' rb Hin). lia.
  - rewrite (busFactor_empty_category runbooks training c Hc).
    symmetry. apply (busFactor_empty_category runbooks' training c).
    intros rb Hin. apply Hc. by rewrite same_rows.
Qed.

End RowOrder.

(** Property X7: the query for the runbooks has no ORDER BY.  Whatever order the rows
    come in, [scores] and [busFactor] are the same, and [criticalGaps]
    has the same entries. *)
Theorem analysis_independent_of_row_order (training : gmap string (list string))
    (runbooks runbooks' : list Runbook) :
  runbooks ≡ₚ runbooks' →
  let a := computeBusFactor runbooks training in
  let a' := computeBusFactor runbooks' training in
  a_scores a = a_scores a'
  ∧ a_busFactor a = a_busFactor a'
  ∧ a_criticalGaps a ≡ₚ a_criticalGaps a'.
Proof.
  intros Hp a a'. unfold a, a'. split; [|split].
  - rewrite !computeBusFactor_scores. unfold categories. cbn [fmap list_fmap].
    by rewrite !(catScore_Permutation training runbooks runbooks' Hp).
  - by apply busFactor_Permutation.
  - rewrite !computeBusFactor_gaps. unfold categories. cbn [fmap list_fmap concat].
    by rewrite !(catGaps_Permutation training runbooks runbooks' Hp).
Qed.

Lemma analysis_independent_of_row_order_witness :
  a_busFactor (computeBusFactor opsFour opsTraining)
  = a_busFactor (computeBusFactor (reverse opsFour) opsTraining).
Proof.
  apply (analysis_independent_of_row_order opsTraining opsFour (reverse opsFour)).
  symmetry. apply reverse_Permutation.
Defined.

(** ** The alert *)

Lemma riskOf_critical (q : Q) : riskOf q = critical ↔ (q < 1 # 2)%Q.
Proof.
  rewrite <- Qltb_lt. unfold riskOf.
  destruct (Qltb q (1 # 2)); [done|].
  destruct (Qltb q (4 # 5)); split; intros H; discriminate H.
Qed.

Lemma coverageOf_below_half covered n :
  (coverageOf covered (S n) < 1 # 2)%Q ↔ 2 * covered < S n.
Proof.
  unfold coverageOf. cbn [Nat.ltb Nat.leb]. unfold Qlt. cbn [Qnum Qden].
  rewrite Zpos_of_nat_S. lia.
Qed.

Lemma catScore_critical training runbooks c :
  riskLevel (catScore training runbooks c) = critical
  ↔ inCategory c runbooks = []
    ∨ 2 * coveredCount training (inCategory c runbooks) < length (inCategory c runbooks).
Proof.
  unfold catScore. destruct (inCategory c runbooks) as [|rb l].
  - split; [by left|done].
  - cbn [riskLevel]. rewrite riskOf_critical. cbn [length].
    rewrite coverageOf_below_half. split; [by right|]. by intros [?|?].
Qed.

(** Property X8: the alert is raised exactly when some category has no runbook or
    has fewer than half of its runbooks covered by two verified people. *)
Theorem alert_iff_half_uncovered (runbooks : list Runbook)
    (training : gmap string (list string)) :
  hasCriticalRisk (a_scores (computeBusFactor runbooks training)) = true
  ↔ ∃ c : Category,
      let procedures := filter (fun rb => rb_category rb = c) runbooks in
      let covered := filter (fun rb => 2 ≤ trainedCount training rb) procedures in
      procedures = [] ∨ 2 * length covered < length procedures.
Proof.
  rewrite computeBusFactor_scores. unfold hasCriticalRisk.
  rewrite existsb_exists. split.
  - intros (kv & Hin & Hcrit). apply list_elem_of_In in Hin.
    apply list_elem_of_fmap in Hin as (c & -> & _). cbn [snd] in Hcrit.
    apply bool_decide_eq_true in Hcrit. exists c. by apply catScore_critical.
  - intros (c & Hc). exists (catName c, catScore training runbooks c). split.
    + apply list_elem_of_In, list_elem_of_fmap. exists c.
      split; [done|apply elem_of_categories].
    + cbn [snd]. apply bool_decide_eq_true. by apply catScore_critical.
Qed.

(** ** The guards of [POST] and the stored analysis *)

(** Property X9: an analysis is returned or stored only for a token whose
    organisation is the requested one and which carries one of the three
    permissions; a stored row belongs to that organisation, its id is the
    [analysisId] of the response, and it is written only when
    recalculation is asked for or no recent analysis exists. *)
Theorem postHandler_authorised (auth : Thrown + Claims) (parsed : option Body)
    (existing : option AnalysisRow) (env : Env) (s : Snapshot)
    (out : Outcome) (inserted : option (string * AnalysisRow)) :
  postHandler auth parsed existing env s = (out, inserted) →
  ((∃ body, out = Respond 200 body) ∨ is_Some inserted) →
  ∃ claims validated,
    auth = inr claims ∧ parsed = Some validated
    ∧ cl_orgId claims = b_orgId validated
    ∧ ("analysis:write" ∈ cl_permissions claims ∨ "admin" ∈ cl_permissions claims
       ∨ "owner" ∈ cl_permissions claims)
    ∧ ∀ org row, inserted = Some (org, row) →
        org = cl_orgId claims
        ∧ (b_recalculate validated = true ∨ existing = None)
        ∧ ∃ body, out = Respond 200 body
                  ∧ jsonField "analysisId" body = Some (JStr (row_id row)).
Proof.
  unfold postHandler. intros H Hdata.
  destruct auth as [e|claims].
  { injection H as <- <-. destruct Hdata as [[body Hb]|[? Hi]]; discriminate. }
  destruct parsed as [validated|].
  2: { injection H as <- <-. destruct Hdata as [[body Hb]|[? Hi]]; discriminate. }
  destruct (String.eqb (cl_orgId claims) (b_orgId validated)) eqn:Horg; cbn [negb] in H.
  2: { injection H as <- <-. destruct Hdata as [[body Hb]|[? Hi]]; discriminate. }
  apply String.eqb_eq in Horg.
  destruct (hasPermission claims) eqn:Hperm; cbn [negb] in H.
  2: { injection H as <- <-. destruct Hdata as [[body Hb]|[? Hi]]; discriminate. }
  exists claims, validated.
  split; [done|]. split; [done|]. split; [done|]. split.
  - unfold hasPermission in Hperm.
    rewrite !orb_true_iff, !bool_decide_eq_true in Hperm. tauto.
  - intros org row ->.
    destruct (b_recalculate validated) eqn:Hre.
    + cbn in H. injection H as <- <- <-.
      split; [done|]. split; [by left|]. by eexists.
    + destruct existing as [row'|]; [discriminate H|].
      cbn in H. injection H as <- <- <-.
      split; [done|]. split; [by right|]. by eexists.
Qed.

Lemma postHandler_authorised_witness :
  ∃ claims validated,
    (inr (mkClaims "org-1" ["admin"] "u-ann") : Thrown + Claims) = inr claims
    ∧ Some (mkBody "org-1" true) = Some validated
    ∧ cl_orgId claims = b_orgId validated.
Proof.
  destruct (postHandler_authorised
              (inr (mkClaims "org-1" ["admin"] "u-ann")) (Some (mkBody "org-1" true))
              None (mkEnv "a-1" 0) (mkSnapshot financeOnly [] [] [])
              _ _ eq_refl) as (claims & validated & H1 & H2 & H3 & _).
  - left. by eexists.
  - by exists claims, validated.
Defined.

Lemma catNames_NoDup : NoDup (catName <$> categories).
Proof. apply (bool_decide_unpack _). by vm_compute. Qed.

Lemma objGet_elem_of {V} (k : string) (v : V) (o : list (string * V)) :
  NoDup o.*1 → (objGet k o = Some v ↔ (k, v) ∈ o).
Proof.
  induction o as [|[k' v'] o IH]; intros Hnd.
  - split; [done|]. intros H. by apply elem_of_nil in H.
  - rewrite fmap_cons in Hnd. apply NoDup_cons in Hnd as [Hk' Hnd].
    cbn [objGet fst]. destruct (decide (k' = k)) as [->|Hne].
    + split.
      * intros [= ->]. by left.
      * intros [[= ->]|Hin]%elem_of_cons; [done|].
        exfalso. apply Hk'. apply list_elem_of_fmap. by exists (k, v).
    + rewrite IH by done. split; [by right|].
      intros [[= -> ->]|Hin]%elem_of_cons; done.
Qed.

Lemma objGet_Permutation {V} (k : string) (o o' : list (string * V)) :
  NoDup o.*1 → o ≡ₚ o' → objGet k o = objGet k o'.
Proof.
  intros Hnd Hp.
  assert (NoDup o'.*1) as Hnd' by (by rewrite <- Hp).
  destruct (objGet k o) as [v|] eqn:E.
  - symmetry. apply objGet_elem_of; [done|]. rewrite <- Hp. by apply objGet_elem_of.
  - destruct (objGet k o') as [v'|] eqn:E'; [|done].
    apply objGet_elem_of in E'; [|done]. rewrite <- Hp in E'.
    apply objGet_elem_of in E'; [|done]. congruence.
Qed.

(** Property X10: a call without recalculation that finds a stored analysis answers
    from the row alone, whatever the organisation's data have become, and
    stores nothing.  When the row is what an earlier recalculating call
    stored, read back with the keys of [scores] in any order, the answer
    has the [analysisId], [criticalGaps] and [busFactor] of the earlier
    response and the same score under every key. *)
Theorem cached_response_round_trip (claims : Claims) (validated : Body)
    (env env' : Env) (s s' : Snapshot) (stored : AnalysisRow) :
  cl_orgId claims = b_orgId validated →
  hasPermission claims = true →
  b_recalculate validated = false →
  row_id stored = row_id (POST env s).2 →
  row_scores stored ≡ₚ row_scores (POST env s).2 →
  row_critical_gaps stored = row_critical_gaps (POST env s).2 →
  row_bus_factor stored = row_bus_factor (POST env s).2 →
  ∃ body scores scores0,
    postHandler (inr claims) (Some validated) (Some stored) env' s'
    = (Respond 200 body, None)
    ∧ jsonField "analysisId" body = jsonField "analysisId" (POST env s).1
    ∧ jsonField "criticalGaps" body = jsonField "criticalGaps" (POST env s).1
    ∧ jsonField "busFactor" body = jsonField "busFactor" (POST env s).1
    ∧ jsonField "scores" body = Some scores
    ∧ jsonField "scores" (POST env s).1 = Some scores0
    ∧ ∀ k, jsonField k scores = jsonField k scores0.
Proof.
  intros Horg Hperm Hre Hid Hsc Hgaps Hbf.
  exists (cachedResponse stored),
         (JObj (prod_map id scoreJson <$> row_scores stored)),
         (JObj (prod_map id scoreJson <$> a_scores (analyse s))).
  split.
  { unfold postHandler. rewrite Horg, String.eqb_refl, Hperm, Hre. done. }
  destruct (POST_fields env s) as (_ & -> & -> & -> & ->).
  cbn [POST snd row_id row_scores row_critical_gaps row_bus_factor] in Hid, Hsc, Hgaps, Hbf.
  unfold cachedResponse. cbn [jsonField objGet].
  repeat (rewrite decide_False by discriminate). rewrite !decide_True by done.
  rewrite Hid, Hgaps, Hbf. repeat split; try done.
  intros k. cbn [jsonField]. apply objGet_Permutation.
  - rewrite Hsc. unfold analyse. rewrite computeBusFactor_scores.
    change (NoDup (catName <$> categories)). apply catNames_NoDup.
  - by rewrite Hsc.
Qed.

Lemma cached_response_round_trip_witness :
  ∃ body,
    postHandler (inr (mkClaims "org-1" ["owner"] "u-ann")) (Some (mkBody "org-1" false))
      (Some (POST (mkEnv "a-1" 0) (mkSnapshot financeOnly [] [] [])).2)
      (mkEnv "a-2" 3600000) (mkSnapshot [] [] [] [])
    = (Respond 200 body, None)
    ∧ jsonField "analysisId" body = Some (JStr "a-1").
Proof.
  destruct (cached_response_round_trip
              (mkClaims "org-1" ["owner"] "u-ann") (mkBody "org-1" false)
              (mkEnv "a-1" 0) (mkEnv "a-2" 3600000)
              (mkSnapshot financeOnly [] [] []) (mkSnapshot [] [] [] [])
              (POST (mkEnv "a-1" 0) (mkSnapshot financeOnly [] [] [])).2)
    as (body & sc & sc0 & H & Hid & _); try reflexivity.
  exists body. split; [exact H|]. rewrite Hid. reflexivity.
Defined.

(** ** The reader of the stored gaps *)

(** Property X11: the value [POST] stores in [critical_gaps] is an array, which has
    neither of the two properties the reader looks up: for every stored
    row the test is false, so the reader never brings the next
    calculation forward.  On an object with a [categories] array that
    holds the category the same test is true. *)
Theorem stored_gaps_never_critical (env : Env) (s : Snapshot)
    (category runbookId : string) (others : list json) :
  isCriticalGap (storedCriticalGaps (POST env s).2) category runbookId = Some false
  ∧ isCriticalGap (JObj [("categories", JArr (JStr category :: others))])
      category runbookId = Some true.
Proof.
  split; [reflexivity|].
  unfold isCriticalGap, fieldIncludes. cbn [objGet].
  rewrite decide_True by done. cbn [existsb]. by rewrite String.eqb_refl.
Qed.

(** ** The [GET] handler never reports a low risk *)

(** Property X12: for every draw the bus factor of [GET] is 1, 2 or 3 and its risk
    level is "critical", "high" or "medium" in that order: the handler
    never answers "low", and never a bus factor of 0 or above 3. *)
Theorem GET_risk_by_bus_factor (orgId calculatedAt : string) (random : Q) :
  (0 <= random)%Q → (random < 1)%Q →
  ∃ n : Z,
    jsonField "busFactor" (GET orgId random calculatedAt) = Some (JNum (inject_Z n))
    ∧ ((n = 1%Z ∧ jsonField "riskLevel" (GET orgId random calculatedAt)
                  = Some (JStr "critical"))
       ∨ (n = 2%Z ∧ jsonField "riskLevel" (GET orgId random calculatedAt)
                    = Some (JStr "high"))
       ∨ (n = 3%Z ∧ jsonField "riskLevel" (GET orgId random calculatedAt)
                    = Some (JStr "medium"))).
Proof.
  intros H0 H1. exists (getBusFactor random). split; [apply GET_busFactor|].
  rewrite GET_riskLevel. pose proof (getBusFactor_range random H0 H1) as Hr.
  assert (getBusFactor random = 1 ∨ getBusFactor random = 2 ∨ getBusFactor random = 3)%Z
    as [->| [->| ->]] by lia; auto.
Qed.

Lemma GET_risk_by_bus_factor_witness :
  ∃ n : Z,
    jsonField "busFactor" (GET "org-1" (3 # 4) "2024-01-01T00:00:00.000Z")
    = Some (JNum (inject_Z n)).
Proof.
  destruct (GET_risk_by_bus_factor "org-1" "2024-01-01T00:00:00.000Z" (3 # 4))
    as (n & Hn & _); [by vm_compute|by vm_compute|].
  by exists n.
Defined.

(** ** The memo listing *)

Lemma Zpos_to_pos (limit : Z) : (1 ≤ limit)%Z → Z.pos (Z.to_pos limit) = limit.
Proof. intros H. apply Z2Pos.id. lia. Qed.

(** Property X13: [pages] is the least number of pages of [limit] rows that hold
    [total] rows, and the offset of a page lies below [total] exactly for
    the pages 1 to [pages]. *)
Theorem pages_cover_total (total limit : Z) :
  (0 ≤ total)%Z → (1 ≤ limit)%Z →
  let pages := pagesOf total limit in
  (0 ≤ pages)%Z
  ∧ (total ≤ pages * limit)%Z
  ∧ ((pages - 1) * limit < total)%Z
  ∧ ∀ page, (1 ≤ page)%Z → ((offsetOf page limit < total)%Z ↔ (page ≤ pages)%Z).
Proof.
  intros Ht Hl pages.
  pose proof (Qle_ceiling (total # Z.to_pos limit)) as Hup.
  pose proof (Qceiling_lt (total # Z.to_pos limit)) as Hlo.
  fold (pagesOf total limit) in Hup, Hlo. fold pages in Hup, Hlo.
  unfold Qle in Hup. unfold Qlt in Hlo. cbn [Qnum Qden inject_Z] in Hup, Hlo.
  rewrite Zpos_to_pos in Hup, Hlo by done.
  split; [nia|]. split; [lia|]. split; [lia|].
  intros page Hp. unfold offsetOf. split; intros H; nia.
Qed.

Lemma pages_cover_total_witness :
  (45 ≤ pagesOf 45 20 * 20)%Z ∧ pagesOf 45 20 = 3%Z.
Proof.
  split; [|reflexivity].
  apply (proj1 (proj2 (pages_cover_total 45 20 ltac:(lia) ltac:(lia)))).
Defined.

Example limitClause_category_only :
  limitClause (memoWhere (mkMemoQuery "org-1" (Some finance) None None None 1 20))
  = "LIMIT $3 OFFSET $4"
  ∧ memoParams (mkMemoQuery "org-1" (Some finance) None None None 3 20)
    = [PText "org-1"; PText "finance"; PInt 20; PInt 40].
Proof. split; reflexivity. Qed.

Ltac memo_in_list :=
  by repeat first [apply list_elem_of_here | apply list_elem_of_further].

Ltac memo_bound :=
  eexists _, _; split; [reflexivity|]; split; [reflexivity|]; split; [lia|reflexivity].

Ltac memo_condition :=
  first [ by left
        | right; left; memo_bound
        | right; right; left; memo_bound
        | right; right; right; left; memo_bound
        | right; right; right; right; eexists; split; reflexivity ].

(** Property X14: every placeholder of the WHERE clause is bound to the value it is
    compared with: each condition is the organisation test on [$1], or a
    category, start or end test whose placeholder [$i] has the filter's
    value as [i]-th parameter, or a transcription test without
    placeholder; each filter given has its condition; and LIMIT and OFFSET
    take the two parameters pushed last. *)
Theorem memo_placeholders_bound (q : MemoQuery) :
  let b := memoWhere q in
  let bound (i : nat) (v : string) := 2 ≤ i ∧ queryParams b !! (i - 1) = Some (PText v) in
  paramIndex b = length (queryParams b) + 1
  ∧ queryParams b !! 0 = Some (PText (mq_orgId q))
  ∧ Forall (fun w =>
      w = orgCondition
      ∨ (∃ i c, w = categoryCondition i ∧ mq_category q = Some c ∧ bound i (catName c))
      ∨ (∃ i d, w = startCondition i ∧ mq_startDate q = Some d ∧ bound i d)
      ∨ (∃ i d, w = endCondition i ∧ mq_endDate q = Some d ∧ bound i d)
      ∨ (∃ t, w = transcriptionCondition t ∧ mq_hasTranscription q = Some t))
      (whereConditions b)
  ∧ (is_Some (mq_category q) → ∃ i, categoryCondition i ∈ whereConditions b)
  ∧ (is_Some (mq_startDate q) → ∃ i, startCondition i ∈ whereConditions b)
  ∧ (is_Some (mq_endDate q) → ∃ i, endCondition i ∈ whereConditions b)
  ∧ (∀ t, mq_hasTranscription q = Some t → transcriptionCondition t ∈ whereConditions b)
  ∧ limitClause b
    = "LIMIT " +:+ placeholder (paramIndex b) +:+ " OFFSET "
      +:+ placeholder (paramIndex b + 1)
  ∧ memoParams q !! (paramIndex b - 1) = Some (PInt (mq_limit q))
  ∧ memoParams q !! (paramIndex b + 1 - 1)
    = Some (PInt (offsetOf (mq_page q) (mq_limit q)))
  ∧ length (memoParams q) = paramIndex b + 1.
Proof.
  destruct q as [org [c|] [sd|] [ed|] [[|]|] page limit];
    cbn -[orgCondition categoryCondition startCondition endCondition
          transcriptionCondition limitClause placeholder];
    repeat match goal with |- _ ∧ _ => split end;
    lazymatch goal with
    | |- is_Some None → _ => intros [? [=]]
    | |- is_Some (Some _) → _ => intros _; eexists; memo_in_list
    | |- ∀ t, None = Some t → _ => intros t [=]
    | |- ∀ t, Some _ = Some t → _ => intros t [= <-]; memo_in_list
    | |- Forall _ _ =>
        repeat first [apply List.Forall_nil | apply List.Forall_cons; [memo_condition|]]
    | |- _ => reflexivity
    end.
Qed.

(** ** Gaps and coverage of one category *)




Lemma runbookTraining_NoDup_witness :
  runbookTraining catalog [owner] [] [] !! "rb-steel" = Some ["u-own"]
  ∧ NoDup ["u-own"].
Proof.
  split; [reflexivity|].
  apply (runbookTraining_NoDup catalog [owner] [] [] "rb-steel"). reflexivity.
Defined.
